(** * SystemMonitorApp: a shallow embedding of [src/main.py]

    The application is a single class, [SystemMonitorApp], driven by the Tk
    event loop.  Its attributes become the fields of the record [App]; its
    methods become computations in a small state-and-exception monad [M]
    (a Python exception leaves the attribute writes made so far in place);
    [frame.after] becomes an explicit queue of pending callbacks, and the Tk
    main loop becomes the transition function [dispatch].

    What lies outside the repository is modelled by its documented
    behaviour: the [psutil] readings are the fields of [World], the SQLite
    table [records] is a list of rows of REAL values kept in rowid order,
    binding a parameter follows the [sqlite3] module, a [ttk.Treeview]
    is the list of its items, [simpledialog.askinteger] is a function of what
    the user does with the dialog. *)

From Stdlib Require Import ZArith List String Ascii Bool Lia PrimFloat.
From Stdlib Require Import Permutation.
From Stdlib Require Uint63.
Import ListNotations.

Local Open Scope Z_scope.
Local Open Scope string_scope.

(** ** Python values and exceptions *)

(** The exceptions that can travel through the methods of the class. *)
Inductive exn : Type :=
| PermissionError      (* psutil.disk_usage on an unreadable mount point *)
| OSError              (* any other failure of psutil.disk_usage *)
| OverflowError        (* sqlite3: an int parameter outside 64 bits *)
| OperationalError.    (* sqlite3: no such table, or SQLITE_FULL *)

Inductive outcome (A : Type) : Type :=
| Ok (a : A)
| Raise (e : exn).

Arguments Ok {A} a.
Arguments Raise {A} e.

(** A cell of the live table: [values=('ЦПУ', self.cpu_info, '-')] mixes
    strings, floats and integers. *)
Inductive pyval : Type :=
| PyStr (s : string)
| PyFloat (f : float)
| PyInt (z : Z).

(** ** [str.format] with the specification [{:02}] *)

Module PyFormat.

Definition digit (d : Z) : string :=
  String (ascii_of_nat (48 + Z.to_nat d)) EmptyString.

(** Decimal digits of a non-negative integer, most significant first. *)
Fixpoint digits (fuel : nat) (n : Z) : string :=
  match fuel with
  | O => EmptyString
  | S fuel' =>
      if (n <? 10)%Z then digit n
      else digits fuel' (n / 10) ++ digit (n mod 10)
  end.

(** [str(n)] for [0 <= n]: a number below [2^k] has at most [k] digits. *)
Definition str_nonneg (n : Z) : string :=
  digits (S (Z.to_nat (Z.log2 n))) n.

Fixpoint zeros (k : nat) : string :=
  match k with
  | O => EmptyString
  | S k' => String "0" (zeros k')
  end.

(** [format(z, '02')]: the sign first, then zeros up to a total width of
    two, then the digits; a longer number is not cut. *)
Definition format_02 (z : Z) : string :=
  let sign := if (z <? 0)%Z then "-" else "" in
  let body := str_nonneg (Z.abs z) in
  sign ++ zeros (2 - String.length sign - String.length body) ++ body.

(** Reading a digit string back, used to state that nothing is lost. *)
Definition digit_value (c : ascii) : Z := Z.of_nat (nat_of_ascii c) - 48.

Fixpoint value_from (acc : Z) (s : string) : Z :=
  match s with
  | EmptyString => acc
  | String c s' => value_from (10 * acc + digit_value c) s'
  end.

Definition int_of_string (s : string) : Z := value_from 0 s.

End PyFormat.

(** ** The readings of [psutil] *)

Record svmem : Type := {
  vm_total : Z;
  vm_available : Z
}.

Record sdiskusage : Type := {
  du_total : Z;
  du_used : Z;
  du_free : Z
}.

Record sdiskpart : Type := {
  device : string;
  mountpoint : string
}.

(** What the operating system answers at the moment of one reading. *)
Record World : Type := {
  cpu_percent : float;
  virtual_memory : svmem;
  disk_partitions : list sdiskpart;
  disk_usage : string -> outcome sdiskusage
}.

Definition get_cpu_usage (w : World) : float := cpu_percent w.

Definition get_osu_usage (w : World) : Z * Z :=
  let osu_available := vm_available (virtual_memory w) / 1024 in
  let osu_total := vm_total (virtual_memory w) / 1024 in
  (osu_available, osu_total).

(** The body of the [for] loop of [get_disk_usage]: the accumulator is
    [(disk_info_total, disk_info_free)]; [PermissionError] is caught and the
    loop continues, any other exception leaves the function. *)
Fixpoint disk_loop (w : World) (partitions : list sdiskpart)
    (disk_info_total disk_info_free : Z) : outcome (Z * Z) :=
  match partitions with
  | [] => Ok (disk_info_total, disk_info_free)
  | partition :: rest =>
      match disk_usage w (mountpoint partition) with
      | Ok usage =>
          disk_loop w rest (disk_info_total + du_total usage)
                           (disk_info_free + du_free usage)
      | Raise PermissionError => disk_loop w rest disk_info_total disk_info_free
      | Raise e => Raise e
      end
  end.

Definition get_disk_usage (w : World) : outcome (Z * Z) :=
  match disk_loop w (disk_partitions w) 0 0 with
  | Ok (disk_info_total, disk_info_free) =>
      Ok (disk_info_free / 1024, disk_info_total / 1024)
  | Raise e => Raise e
  end.

(** ** The SQLite table [records] *)

(** What a column declared [REAL] holds, and what a [SELECT] hands back
    for it: NULL (Python's [None]) or a floating-point number. *)
Inductive sqlval : Type :=
| SqlNull
| SqlReal (f : float).

(** One row without its [id]: the five columns [cpu], [osu_free],
    [osu_total], [disk_free], [disk_total], all declared [REAL]. *)
Record db_row : Type := {
  cpu : sqlval;
  osu_free : sqlval;
  osu_total : sqlval;
  disk_free : sqlval;
  disk_total : sqlval
}.

(** The table is a B-tree keyed by [id] (the rowid): [tbl_records] lists its
    rows in key order, which is the order of a full scan.  [sqlite_sequence]
    is the largest [id] the [AUTOINCREMENT] column has handed out. *)
Record Db : Type := {
  tbl_records : list (Z * db_row);
  sqlite_sequence : Z
}.

Module Sqlite.

Definition empty_table : Db :=
  {| tbl_records := []; sqlite_sequence := 0 |}.

Definition max_rowid : Z := 2 ^ 63 - 1.

(** The floating-point number nearest to an integer of 64 bits, ties to
    even: what the REAL affinity of a column makes of an integer.  From
    2^53 on not every integer has a floating-point number of its own. *)
Definition real_of_nonneg (z : Z) : float :=
  PrimFloat.of_uint63 (Uint63.of_Z z).

Definition real_of_int (z : Z) : float :=
  if (z =? - 2 ^ 63)%Z
  then PrimFloat.opp (PrimFloat.mul 2 (real_of_nonneg (2 ^ 62)))
  else if (z <? 0)%Z then PrimFloat.opp (real_of_nonneg (- z))
  else real_of_nonneg z.

Definition fits_int64 (z : Z) : bool :=
  ((- 2 ^ 63 <=? z) && (z <? 2 ^ 63))%Z.

(** Binding a Python [int]: the [sqlite3] module raises [OverflowError]
    when it does not fit SQLite's 64-bit INTEGER; the column then stores
    the integer as a REAL. *)
Definition bind_int (z : Z) : outcome sqlval :=
  if fits_int64 z then Ok (SqlReal (real_of_int z)) else Raise OverflowError.

(** Binding a Python [float]: SQLite stores a NaN as NULL. *)
Definition bind_float (f : float) : sqlval :=
  if PrimFloat.is_nan f then SqlNull else SqlReal f.

(** The five parameters of the [INSERT] of [save_to_db], as the row they
    become. *)
Definition bind_params (cpu_info : float) (osu_info disk_info : Z * Z)
    : outcome db_row :=
  match bind_int (fst osu_info), bind_int (snd osu_info),
        bind_int (fst disk_info), bind_int (snd disk_info) with
  | Ok free, Ok total, Ok dfree, Ok dtotal =>
      Ok {| cpu := bind_float cpu_info;
            osu_free := free; osu_total := total;
            disk_free := dfree; disk_total := dtotal |}
  | _, _, _, _ => Raise OverflowError
  end.

Fixpoint largest_rowid (rows : list (Z * db_row)) : Z :=
  match rows with
  | [] => 0
  | (id, _) :: rest => Z.max id (largest_rowid rest)
  end.

(** A new row goes to its place in key order. *)
Fixpoint btree_insert (id : Z) (r : db_row) (rows : list (Z * db_row))
    : list (Z * db_row) :=
  match rows with
  | [] => [(id, r)]
  | (id', r') :: rest =>
      if (id <? id')%Z then (id, r) :: (id', r') :: rest
      else (id', r') :: btree_insert id r rest
  end.

(** [AUTOINCREMENT]: one more than the largest [id] ever used; when that
    was the largest possible rowid the insert fails with SQLITE_FULL. *)
Definition last_rowid (d : Db) : Z :=
  Z.max (sqlite_sequence d) (largest_rowid (tbl_records d)).

Definition insert (r : db_row) (d : Db) : outcome Db :=
  if (max_rowid <=? last_rowid d)%Z then Raise OperationalError
  else
    let id := last_rowid d + 1 in
    Ok {| tbl_records := btree_insert id r (tbl_records d);
          sqlite_sequence := id |}.

(** [SELECT cpu, osu_free, osu_total, disk_free, disk_total FROM records]:
    a scan of the table, without the [id] column. *)
Definition select_all (d : Db) : list db_row := map snd (tbl_records d).

Definition ids (d : Db) : list Z := map fst (tbl_records d).

End Sqlite.

(** ** [ttk.Treeview] *)

(** The items of a tree view in display order, each with the item
    identifier Tk gave it, and the counter the next identifier comes from. *)
Record Treeview (V : Type) : Type := {
  tv_items : list (nat * V);
  tv_next_iid : nat
}.

Arguments tv_items {V} _.
Arguments tv_next_iid {V} _.

Module Tree.

Definition create {V : Type} : Treeview V :=
  {| tv_items := []; tv_next_iid := 1 |}.

Definition get_children {V : Type} (t : Treeview V) : list nat :=
  map fst (tv_items t).

Definition delete {V : Type} (i : nat) (t : Treeview V) : Treeview V :=
  {| tv_items := filter (fun it => negb (Nat.eqb (fst it) i)) (tv_items t);
     tv_next_iid := tv_next_iid t |}.

(** [insert('', 'end', values=v)] *)
Definition insert_end {V : Type} (v : V) (t : Treeview V) : Treeview V :=
  {| tv_items := tv_items t ++ [(tv_next_iid t, v)];
     tv_next_iid := S (tv_next_iid t) |}.

(** The rows as the user sees them. *)
Definition rows {V : Type} (t : Treeview V) : list V := map snd (tv_items t).

End Tree.

(** ** [simpledialog.askinteger] *)

(** What the user may do with the dialog: press OK on an integer, press OK
    on text that is not an integer, or cancel. *)
Inductive dialog_action : Type :=
| SubmitInt (z : Z)
| SubmitText
| Cancel.

(** The dialog stays open, with a warning, while the entry is not an integer
    or lies outside [minvalue..maxvalue]; it returns the first accepted entry,
    or [None] when it is cancelled or closed. *)
Fixpoint askinteger (minvalue maxvalue : Z) (script : list dialog_action)
    : option Z :=
  match script with
  | [] => None
  | Cancel :: _ => None
  | SubmitText :: rest => askinteger minvalue maxvalue rest
  | SubmitInt z :: rest =>
      if ((z <? minvalue) || (maxvalue <? z))%Z
      then askinteger minvalue maxvalue rest
      else Some z
  end.

(** ** The attributes of [SystemMonitorApp] *)

(** The two bound methods that are handed to [frame.after]. *)
Inductive callback : Type :=
| CbUpdateTimer
| CbUpdateDiskUsage.

Definition live_row : Type := (pyval * pyval * pyval)%type.

(** A widget of the main window is recorded by whether it is packed (shown)
    and, for the label, by its text.  [pending] holds the callbacks given to
    [frame.after] that have not run yet, each with its delay in milliseconds.
    The attributes that only cache a local value ([cpu_info], [osu_info],
    [disk_info], [minutes], [seconds], [record]) are let-bound instead. *)
Record App : Type := {
  tick_interval : Z;
  elapsed_time : Z;
  recording : bool;
  table_tree : Treeview live_row;
  timer_label : string;
  timer_label_packed : bool;
  start_button : bool;
  history_button : bool;
  change_tick_button : bool;
  stop_button : bool;
  conn : option Db;
  records : list db_row;
  history_tree : option (Treeview db_row);
  pending : list (Z * callback)
}.

Definition set_tick_interval (v : Z) (s : App) : App :=
  {| tick_interval := v; elapsed_time := elapsed_time s;
     recording := recording s; table_tree := table_tree s;
     timer_label := timer_label s; timer_label_packed := timer_label_packed s;
     start_button := start_button s; history_button := history_button s;
     change_tick_button := change_tick_button s; stop_button := stop_button s;
     conn := conn s; records := records s; history_tree := history_tree s;
     pending := pending s |}.

Definition set_elapsed_time (v : Z) (s : App) : App :=
  {| tick_interval := tick_interval s; elapsed_time := v;
     recording := recording s; table_tree := table_tree s;
     timer_label := timer_label s; timer_label_packed := timer_label_packed s;
     start_button := start_button s; history_button := history_button s;
     change_tick_button := change_tick_button s; stop_button := stop_button s;
     conn := conn s; records := records s; history_tree := history_tree s;
     pending := pending s |}.

Definition set_recording (v : bool) (s : App) : App :=
  {| tick_interval := tick_interval s; elapsed_time := elapsed_time s;
     recording := v; table_tree := table_tree s;
     timer_label := timer_label s; timer_label_packed := timer_label_packed s;
     start_button := start_button s; history_button := history_button s;
     change_tick_button := change_tick_button s; stop_button := stop_button s;
     conn := conn s; records := records s; history_tree := history_tree s;
     pending := pending s |}.

Definition set_table_tree (v : Treeview live_row) (s : App) : App :=
  {| tick_interval := tick_interval s; elapsed_time := elapsed_time s;
     recording := recording s; table_tree := v;
     timer_label := timer_label s; timer_label_packed := timer_label_packed s;
     start_button := start_button s; history_button := history_button s;
     change_tick_button := change_tick_button s; stop_button := stop_button s;
     conn := conn s; records := records s; history_tree := history_tree s;
     pending := pending s |}.

Definition set_timer_label (v : string) (s : App) : App :=
  {| tick_interval := tick_interval s; elapsed_time := elapsed_time s;
     recording := recording s; table_tree := table_tree s;
     timer_label := v; timer_label_packed := timer_label_packed s;
     start_button := start_button s; history_button := history_button s;
     change_tick_button := change_tick_button s; stop_button := stop_button s;
     conn := conn s; records := records s; history_tree := history_tree s;
     pending := pending s |}.

Definition set_timer_label_packed (v : bool) (s : App) : App :=
  {| tick_interval := tick_interval s; elapsed_time := elapsed_time s;
     recording := recording s; table_tree := table_tree s;
     timer_label := timer_label s; timer_label_packed := v;
     start_button := start_button s; history_button := history_button s;
     change_tick_button := change_tick_button s; stop_button := stop_button s;
     conn := conn s; records := records s; history_tree := history_tree s;
     pending := pending s |}.

Definition set_start_button (v : bool) (s : App) : App :=
  {| tick_interval := tick_interval s; elapsed_time := elapsed_time s;
     recording := recording s; table_tree := table_tree s;
     timer_label := timer_label s; timer_label_packed := timer_label_packed s;
     start_button := v; history_button := history_button s;
     change_tick_button := change_tick_button s; stop_button := stop_button s;
     conn := conn s; records := records s; history_tree := history_tree s;
     pending := pending s |}.

Definition set_history_button (v : bool) (s : App) : App :=
  {| tick_interval := tick_interval s; elapsed_time := elapsed_time s;
     recording := recording s; table_tree := table_tree s;
     timer_label := timer_label s; timer_label_packed := timer_label_packed s;
     start_button := start_button s; history_button := v;
     change_tick_button := change_tick_button s; stop_button := stop_button s;
     conn := conn s; records := records s; history_tree := history_tree s;
     pending := pending s |}.

Definition set_change_tick_button (v : bool) (s : App) : App :=
  {| tick_interval := tick_interval s; elapsed_time := elapsed_time s;
     recording := recording s; table_tree := table_tree s;
     timer_label := timer_label s; timer_label_packed := timer_label_packed s;
     start_button := start_button s; history_button := history_button s;
     change_tick_button := v; stop_button := stop_button s;
     conn := conn s; records := records s; history_tree := history_tree s;
     pending := pending s |}.

Definition set_stop_button (v : bool) (s : App) : App :=
  {| tick_interval := tick_interval s; elapsed_time := elapsed_time s;
     recording := recording s; table_tree := table_tree s;
     timer_label := timer_label s; timer_label_packed := timer_label_packed s;
     start_button := start_button s; history_button := history_button s;
     change_tick_button := change_tick_button s; stop_button := v;
     conn := conn s; records := records s; history_tree := history_tree s;
     pending := pending s |}.

Definition set_conn (v : option Db) (s : App) : App :=
  {| tick_interval := tick_interval s; elapsed_time := elapsed_time s;
     recording := recording s; table_tree := table_tree s;
     timer_label := timer_label s; timer_label_packed := timer_label_packed s;
     start_button := start_button s; history_button := history_button s;
     change_tick_button := change_tick_button s; stop_button := stop_button s;
     conn := v; records := records s; history_tree := history_tree s;
     pending := pending s |}.

Definition set_records (v : list db_row) (s : App) : App :=
  {| tick_interval := tick_interval s; elapsed_time := elapsed_time s;
     recording := recording s; table_tree := table_tree s;
     timer_label := timer_label s; timer_label_packed := timer_label_packed s;
     start_button := start_button s; history_button := history_button s;
     change_tick_button := change_tick_button s; stop_button := stop_button s;
     conn := conn s; records := v; history_tree := history_tree s;
     pending := pending s |}.

Definition set_history_tree (v : option (Treeview db_row)) (s : App) : App :=
  {| tick_interval := tick_interval s; elapsed_time := elapsed_time s;
     recording := recording s; table_tree := table_tree s;
     timer_label := timer_label s; timer_label_packed := timer_label_packed s;
     start_button := start_button s; history_button := history_button s;
     change_tick_button := change_tick_button s; stop_button := stop_button s;
     conn := conn s; records := records s; history_tree := v;
     pending := pending s |}.

Definition set_pending (v : list (Z * callback)) (s : App) : App :=
  {| tick_interval := tick_interval s; elapsed_time := elapsed_time s;
     recording := recording s; table_tree := table_tree s;
     timer_label := timer_label s; timer_label_packed := timer_label_packed s;
     start_button := start_button s; history_button := history_button s;
     change_tick_button := change_tick_button s; stop_button := stop_button s;
     conn := conn s; records := records s; history_tree := history_tree s;
     pending := v |}.

(** ** Methods as computations over the attributes *)

(** A method reads and writes the attributes and either returns or raises;
    what it wrote before raising stays written. *)
Definition M (A : Type) : Type := App -> outcome A * App.

Definition ret {A : Type} (a : A) : M A := fun s => (Ok a, s).

Definition bind {A B : Type} (m : M A) (k : A -> M B) : M B :=
  fun s =>
    match m s with
    | (Ok a, s') => k a s'
    | (Raise e, s') => (Raise e, s')
    end.

Definition get : M App := fun s => (Ok s, s).

Definition modify (f : App -> App) : M unit := fun s => (Ok tt, f s).

Definition lift {A : Type} (o : outcome A) : M A := fun s => (o, s).

Declare Scope method_scope.
Delimit Scope method_scope with method.
Bind Scope method_scope with M.

Notation "x <- m ;; k" := (bind m (fun x => k))
  (at level 61, m at next level, right associativity) : method_scope.
Notation "m ;; k" := (bind m (fun _ => k))
  (at level 61, right associativity) : method_scope.

Local Open Scope method_scope.

(** [for x in xs: body(x)] *)
Fixpoint for_each {A : Type} (xs : list A) (body : A -> M unit) : M unit :=
  match xs with
  | [] => ret tt
  | x :: rest => body x ;; for_each rest body
  end.

(** The state a method leaves, whether it returned or raised. *)
Definition exec {A : Type} (m : M A) (s : App) : App := snd (m s).

(** [frame.after(ms, cb)] *)
Definition after (ms : Z) (cb : callback) : M unit :=
  modify (fun s => set_pending (pending s ++ [(ms, cb)]) s).

(** [setup_ui]: the buttons 'Начать запись', 'История' and 'Изменить время
    тика' are packed, 'Остановить' and the clock label are not; the label
    reads 00:00. *)
Definition setup_ui : M unit :=
  modify (set_start_button true) ;;
  modify (set_history_button true) ;;
  modify (set_change_tick_button true) ;;
  modify (set_stop_button false) ;;
  modify (set_timer_label "00:00") ;;
  modify (set_timer_label_packed false).

(** [setup_db]: connect to the file and [CREATE TABLE IF NOT EXISTS records].
    [conn] is the content of the file: [None] while it has no such table. *)
Definition setup_db : M unit :=
  s <- get ;;
  match conn s with
  | Some _ => ret tt
  | None => modify (set_conn (Some Sqlite.empty_table))
  end.

(** [__init__], started on a database file with content [file]. *)
Definition init (file : option Db) : App :=
  exec (setup_ui ;; setup_db)
    {| tick_interval := 1000; elapsed_time := 0; recording := false;
       table_tree := Tree.create;
       timer_label := ""; timer_label_packed := false;
       start_button := false; history_button := false;
       change_tick_button := false; stop_button := false;
       conn := file; records := []; history_tree := None;
       pending := [] |}.

Definition save_to_db (cpu_info : float) (osu_info disk_info : Z * Z) : M unit :=
  s <- get ;;
  match conn s with
  | None => lift (Raise OperationalError)
  | Some d =>
      row <- lift (Sqlite.bind_params cpu_info osu_info disk_info) ;;
      d' <- lift (Sqlite.insert row d) ;;
      modify (set_conn (Some d'))
  end.

Definition update_timer : M unit :=
  s <- get ;;
  if recording s then
    modify (set_elapsed_time (elapsed_time s + 1)) ;;
    s <- get ;;
    let minutes := (elapsed_time s / 60)%Z in
    let seconds := (elapsed_time s mod 60)%Z in
    modify (set_timer_label
              (PyFormat.format_02 minutes ++ ":" ++ PyFormat.format_02 seconds)) ;;
    after 1000 CbUpdateTimer
  else ret tt.

(** [self.table_tree.delete(i)] *)
Definition delete_item (i : nat) : M unit :=
  modify (fun s => set_table_tree (Tree.delete i (table_tree s)) s).

Definition update_disk_usage (w : World) : M unit :=
  s <- get ;;
  if negb (recording s) then ret tt
  else
    for_each (Tree.get_children (table_tree s)) delete_item ;;
    let cpu_info := get_cpu_usage w in
    let osu_info := get_osu_usage w in
    disk_info <- lift (get_disk_usage w) ;;
    modify (fun s => set_table_tree
      (Tree.insert_end (PyStr "ЦПУ", PyFloat cpu_info, PyStr "-") (table_tree s)) s) ;;
    let '(free, total) := osu_info in
    modify (fun s => set_table_tree
      (Tree.insert_end (PyStr "ОЗУ", PyInt free, PyInt total) (table_tree s)) s) ;;
    let '(free, total) := disk_info in
    modify (fun s => set_table_tree
      (Tree.insert_end (PyStr "ПЗУ", PyInt free, PyInt total) (table_tree s)) s) ;;
    save_to_db cpu_info osu_info disk_info ;;
    s <- get ;;
    after (tick_interval s) CbUpdateDiskUsage.

Definition start_recording (w : World) : M unit :=
  modify (set_recording true) ;;
  modify (set_start_button false) ;;
  modify (set_history_button false) ;;
  modify (set_change_tick_button false) ;;
  modify (set_stop_button true) ;;
  modify (set_timer_label_packed true) ;;
  update_timer ;;
  update_disk_usage w.

Definition stop_recording : M unit :=
  modify (set_recording false) ;;
  modify (set_stop_button false) ;;
  modify (set_timer_label_packed false) ;;
  modify (set_start_button true) ;;
  modify (set_history_button true) ;;
  modify (set_change_tick_button true) ;;
  modify (set_elapsed_time 0).

Definition show_history : M unit :=
  s <- get ;;
  match conn s with
  | None => lift (Raise OperationalError)
  | Some d =>
      modify (set_records (Sqlite.select_all d)) ;;
      modify (set_history_tree (Some Tree.create)) ;;
      s <- get ;;
      for_each (records s)
        (fun record => modify (fun s =>
           set_history_tree
             (option_map (Tree.insert_end record) (history_tree s)) s))
  end.

(** [if new_tick:] is false for [None] and for [0]. *)
Definition change_tick (script : list dialog_action) : M unit :=
  let new_tick := askinteger 1 1000 script in
  match new_tick with
  | Some n => if (n =? 0)%Z then ret tt else modify (set_tick_interval n)
  | None => ret tt
  end.

(** ** The Tk main loop *)

(** What can happen in the main loop: a click on a button that is packed,
    or one of the pending [after] callbacks coming due ([Timer k] is the
    [k]-th of them; when and in which order they come due is left open).
    A click on 'Начать запись' and a tick read the operating system; a click
    on 'Изменить время тика' comes with what the user does in the dialog.
    [on_closing], which ends the main loop, is not an event. *)
Inductive event : Type :=
| ClickStart (w : World)
| ClickStop
| ClickHistory
| ClickChangeTick (script : list dialog_action)
| Timer (k : nat) (w : World).

Definition run_callback (cb : callback) (w : World) : M unit :=
  match cb with
  | CbUpdateTimer => update_timer
  | CbUpdateDiskUsage => update_disk_usage w
  end.

Fixpoint remove_nth {A : Type} (k : nat) (l : list A) : list A :=
  match l, k with
  | [], _ => []
  | _ :: rest, O => rest
  | x :: rest, S k' => x :: remove_nth k' rest
  end.

(** One turn of the main loop; [None] when the event cannot happen in this
    state.  An exception that leaves a handler is reported by Tk and the loop
    goes on with the attributes as the handler left them. *)
Definition dispatch (ev : event) (s : App) : option App :=
  match ev with
  | ClickStart w =>
      if start_button s then Some (exec (start_recording w) s) else None
  | ClickStop =>
      if stop_button s then Some (exec stop_recording s) else None
  | ClickHistory =>
      if history_button s then Some (exec show_history s) else None
  | ClickChangeTick script =>
      if change_tick_button s then Some (exec (change_tick script) s) else None
  | Timer k w =>
      match nth_error (pending s) k with
      | Some (_, cb) =>
          Some (exec (run_callback cb w) (set_pending (remove_nth k (pending s)) s))
      | None => None
      end
  end.

Fixpoint run (evs : list event) (s : App) : option App :=
  match evs with
  | [] => Some s
  | ev :: rest =>
      match dispatch ev s with
      | Some s' => run rest s'
      | None => None
      end
  end.

(** The states the application can be in: those the main loop reaches from
    [__init__], whatever the database file held. *)
Inductive reachable : App -> Prop :=
| reachable_init (file : option Db) : reachable (init file)
| reachable_step (s s' : App) (ev : event) :
    reachable s -> dispatch ev s = Some s' -> reachable s'.

(** ** Vocabulary of the properties *)

(** A number written with at least two decimal digits. *)
Definition two_digits (n : Z) : string :=
  if (n <? 10)%Z then "0" ++ PyFormat.str_nonneg n else PyFormat.str_nonneg n.

(** The clock text for a number of elapsed seconds: minutes, colon, seconds. *)
Definition clock_text (elapsed : Z) : string :=
  two_digits (elapsed / 60) ++ ":" ++ two_digits (elapsed mod 60).

(** The answer of [psutil.disk_usage] for a partition is a permission error. *)
Definition raises_permission_error (w : World) (p : sdiskpart) : bool :=
  match disk_usage w (mountpoint p) with
  | Raise PermissionError => true
  | _ => false
  end.

(** The query for a partition either answers or raises a permission error. *)
Definition answers_or_denies (w : World) (p : sdiskpart) : Prop :=
  (exists u, disk_usage w (mountpoint p) = Ok u)
  \/ disk_usage w (mountpoint p) = Raise PermissionError.

Definition free_bytes (w : World) (p : sdiskpart) : Z :=
  match disk_usage w (mountpoint p) with
  | Ok u => du_free u
  | Raise _ => 0
  end.

Definition total_bytes (w : World) (p : sdiskpart) : Z :=
  match disk_usage w (mountpoint p) with
  | Ok u => du_total u
  | Raise _ => 0
  end.

Definition sum_over {A : Type} (f : A -> Z) (l : list A) : Z :=
  fold_right (fun x acc => (f x + acc)%Z) 0%Z l.

Definition readable (w : World) : list sdiskpart :=
  filter (fun p => negb (raises_permission_error w p)) (disk_partitions w).

Definition with_partitions (ps : list sdiskpart) (w : World) : World :=
  {| cpu_percent := cpu_percent w; virtual_memory := virtual_memory w;
     disk_partitions := ps; disk_usage := disk_usage w |}.

(** The four integers of a reading fit SQLite's 64-bit INTEGER. *)
Definition bindable (osu_info disk_info : Z * Z) : Prop :=
  Sqlite.fits_int64 (fst osu_info) = true
  /\ Sqlite.fits_int64 (snd osu_info) = true
  /\ Sqlite.fits_int64 (fst disk_info) = true
  /\ Sqlite.fits_int64 (snd disk_info) = true.

(** The row the table holds for a reading that is [bindable]: the CPU
    percentage as bound, each integer as the REAL nearest to it. *)
Definition row_of (cpu_info : float) (osu_info disk_info : Z * Z) : db_row :=
  {| cpu := Sqlite.bind_float cpu_info;
     osu_free := SqlReal (Sqlite.real_of_int (fst osu_info));
     osu_total := SqlReal (Sqlite.real_of_int (snd osu_info));
     disk_free := SqlReal (Sqlite.real_of_int (fst disk_info));
     disk_total := SqlReal (Sqlite.real_of_int (snd disk_info)) |}.

(** The table has room for [k] more rows. *)
Definition has_room (k : Z) (d : Db) : Prop :=
  (Sqlite.last_rowid d + k <= Sqlite.max_rowid)%Z.

(** The three rows of the live table for a reading. *)
Definition live_rows (cpu_info : float) (osu_info disk_info : Z * Z)
    : list live_row :=
  [ (PyStr "ЦПУ", PyFloat cpu_info, PyStr "-");
    (PyStr "ОЗУ", PyInt (fst osu_info), PyInt (snd osu_info));
    (PyStr "ПЗУ", PyInt (fst disk_info), PyInt (snd disk_info)) ].

(** The live table right after a tick drew a reading into it: the old items
    are gone and three new ones carry the next three identifiers. *)
Definition redrawn (cpu_info : float) (osu_info disk_info : Z * Z)
    (t : Treeview live_row) : Treeview live_row :=
  Tree.insert_end (PyStr "ПЗУ", PyInt (fst disk_info), PyInt (snd disk_info))
    (Tree.insert_end (PyStr "ОЗУ", PyInt (fst osu_info), PyInt (snd osu_info))
      (Tree.insert_end (PyStr "ЦПУ", PyFloat cpu_info, PyStr "-")
        {| tv_items := []; tv_next_iid := tv_next_iid t |})).

(** An event other than a click on 'Начать запись'. *)
Definition not_start (ev : event) : Prop :=
  match ev with
  | ClickStart _ => False
  | _ => True
  end.

(** An event that is an [after] callback coming due. *)
Definition is_timer (ev : event) : Prop :=
  match ev with
  | Timer _ _ => True
  | _ => False
  end.

(** Every entry the user makes is refused by the dialog [1..1000]. *)
Definition refused (a : dialog_action) : Prop :=
  match a with
  | SubmitInt z => (z < 1 \/ 1000 < z)%Z
  | SubmitText => True
  | Cancel => True
  end.

(** The buttons shown are those of the mode the loop is in: while idle
    'Начать запись', 'История' and 'Изменить время тика'; while recording
    'Остановить' and the clock. *)
Definition ui_matches_mode (s : App) : Prop :=
  start_button s = negb (recording s)
  /\ history_button s = negb (recording s)
  /\ change_tick_button s = negb (recording s)
  /\ stop_button s = recording s
  /\ timer_label_packed s = recording s.

Definition interval_in_range (s : App) : Prop :=
  (1 <= tick_interval s <= 1000)%Z.

Definition idle_clock_zero (s : App) : Prop :=
  recording s = false -> elapsed_time s = 0%Z.

Definition invariant (s : App) : Prop :=
  interval_in_range s /\ ui_matches_mode s /\ idle_clock_zero s.

(** The state [start_recording] has made when it calls [update_timer]. *)
Definition started (s : App) : App :=
  set_timer_label_packed true
    (set_stop_button true
      (set_change_tick_button false
        (set_history_button false
          (set_start_button false (set_recording true s))))).

(** The state [stop_recording] leaves. *)
Definition stopped (s : App) : App :=
  set_elapsed_time 0
    (set_change_tick_button true
      (set_history_button true
        (set_start_button true
          (set_timer_label_packed false
            (set_stop_button false (set_recording false s)))))).

(** The dialog refuses the entry and stays open. *)
Definition rejected (a : dialog_action) : Prop :=
  match a with
  | SubmitInt z => (z < 1 \/ 1000 < z)%Z
  | SubmitText => True
  | Cancel => False
  end.

(** The table with one more row, under the next [id]. *)
Definition with_row (r : db_row) (d : Db) : Db :=
  {| tbl_records := tbl_records d ++ [(Sqlite.last_rowid d + 1, r)%Z];
     sqlite_sequence := (Sqlite.last_rowid d + 1)%Z |}.

(** The state a tick leaves when it runs to its end. *)
Definition ticked (w : World) (disk_info : Z * Z) (d : Db) (s : App) : App :=
  set_pending (pending s ++ [(tick_interval s, CbUpdateDiskUsage)])
    (set_conn
       (Some (with_row (row_of (get_cpu_usage w) (get_osu_usage w) disk_info) d))
       (set_table_tree
          (redrawn (get_cpu_usage w) (get_osu_usage w) disk_info (table_tree s))
          s)).

(** ** Concrete inputs *)

(** A machine with 10.5 % load, 1024 of 2048 KiB of memory available, a
    readable partition with 512 of 1024 KiB free and one that may not be
    queried. *)
Definition usage_root : sdiskusage :=
  {| du_total := 1024 * 1024; du_used := 512 * 1024; du_free := 512 * 1024 |}.

Definition part_root : sdiskpart := {| device := "sda1"; mountpoint := "/" |}.

Definition part_locked : sdiskpart :=
  {| device := "sdb1"; mountpoint := "/mnt/locked" |}.

Definition world_fixed : World :=
  {| cpu_percent := 10.5%float;
     virtual_memory := {| vm_total := 2048 * 1024; vm_available := 1024 * 1024 |};
     disk_partitions := [part_root; part_locked];
     disk_usage := fun m => if String.eqb m "/" then Ok usage_root
                            else Raise PermissionError |}.

(** The application right after [__init__] on a fresh database file, and
    the same with [recording] switched on. *)
Definition app_fresh : App := init None.

Definition app_recording : App := set_recording true app_fresh.

(** A busier machine: 73.25 % load, memory sizes that are no multiples of
    1024, and a second readable partition. *)
Definition usage_data : sdiskusage :=
  {| du_total := 4096 * 1024; du_used := 3096 * 1024 - 7;
     du_free := 1000 * 1024 + 7 |}.

Definition part_data : sdiskpart := {| device := "sdc1"; mountpoint := "/data" |}.

Definition world_busy : World :=
  {| cpu_percent := 73.25%float;
     virtual_memory :=
       {| vm_total := 8192 * 1024 + 512; vm_available := 3000 * 1024 + 1 |};
     disk_partitions := [part_root; part_locked; part_data];
     disk_usage := fun m =>
       if String.eqb m "/" then Ok usage_root
       else if String.eqb m "/data" then Ok usage_data
       else Raise PermissionError |}.

(** The recording application after one tick on [world_fixed]: its live
    table holds three rows and its table [records] one. *)
Definition app_ticked : App := exec (update_disk_usage world_fixed) app_recording.

(** A session: the user asks for 5000 ms, then for text, then for 250 ms,
    starts the recording, and the first scheduled tick comes due. *)
Definition session_retimed : list event :=
  [ClickChangeTick [SubmitInt 5000; SubmitText; SubmitInt 250];
   ClickStart world_fixed; Timer 1 world_fixed].

(** A session that records, ticks and stops; then the two callbacks that
    were still pending come due. *)
Definition session_stopped : list event :=
  [ClickStart world_fixed; Timer 1 world_fixed; ClickStop].

(** The rows of the live table as the specification words them for the
    reading cpu=10.5, mem=(1024,2048), disk=(512,1024). *)
Definition spec_rows_fixed : list live_row :=
  [ (PyStr "CPU", PyFloat 10.5%float, PyStr "-");
    (PyStr "MEM", PyInt 1024, PyInt 2048);
    (PyStr "DISK", PyInt 512, PyInt 1024) ].

(** A reading as [save_to_db] receives it. *)
Definition sample : Type := (float * (Z * Z) * (Z * Z))%type.


Definition sample_bindable (x : sample) : Prop :=
  let '(_, osu_info, disk_info) := x in bindable osu_info disk_info.

Definition save_sample (x : sample) : M unit :=
  let '(cpu_info, osu_info, disk_info) := x in
  save_to_db cpu_info osu_info disk_info.



(** Idle with the clock at zero and 'Начать запись' on offer. *)
Definition idle_at_zero (s : App) : Prop :=
  recording s = false /\ elapsed_time s = 0%Z
  /\ start_button s = true /\ stop_button s = false.

(** Two states agree on the loop state and on which widgets are shown. *)
Definition same_control (s s' : App) : Prop :=
  tick_interval s' = tick_interval s
  /\ elapsed_time s' = elapsed_time s
  /\ recording s' = recording s
  /\ start_button s' = start_button s
  /\ history_button s' = history_button s
  /\ change_tick_button s' = change_tick_button s
  /\ stop_button s' = stop_button s
  /\ timer_label_packed s' = timer_label_packed s.

(** ** Vocabulary of the further properties *)

(** How a call of [update_disk_usage] can end, with the state it leaves:
    it returns at once because the loop is idle; the disk reading raises
    after the live table was emptied; the binding or the insert raises
    after the three rows were drawn; or it runs to its end. *)
Inductive tick_outcome (w : World) (s : App) : outcome unit -> App -> Prop :=
| tick_skipped :
    recording s = false ->
    tick_outcome w s (Ok tt) s
| tick_disk_failed (e : exn) :
    recording s = true ->
    get_disk_usage w = Raise e ->
    tick_outcome w s (Raise e)
      (set_table_tree
         {| tv_items := []; tv_next_iid := tv_next_iid (table_tree s) |} s)
| tick_bind_failed (disk_info : Z * Z) (d : Db) :
    recording s = true ->
    get_disk_usage w = Ok disk_info ->
    conn s = Some d ->
    ~ bindable (get_osu_usage w) disk_info ->
    tick_outcome w s (Raise OverflowError)
      (set_table_tree
         (redrawn (get_cpu_usage w) (get_osu_usage w) disk_info (table_tree s))
         s)
| tick_store_failed (disk_info : Z * Z) :
    recording s = true ->
    get_disk_usage w = Ok disk_info ->
    (conn s = None
     \/ exists d, conn s = Some d
                  /\ bindable (get_osu_usage w) disk_info
                  /\ (Sqlite.max_rowid <= Sqlite.last_rowid d)%Z) ->
    tick_outcome w s (Raise OperationalError)
      (set_table_tree
         (redrawn (get_cpu_usage w) (get_osu_usage w) disk_info (table_tree s))
         s)
| tick_done (disk_info : Z * Z) (d : Db) :
    recording s = true ->
    get_disk_usage w = Ok disk_info ->
    conn s = Some d -> has_room 1 d ->
    bindable (get_osu_usage w) disk_info ->
    tick_outcome w s (Ok tt) (ticked w disk_info d s).

Definition callback_eqb (a b : callback) : bool :=
  match a, b with
  | CbUpdateTimer, CbUpdateTimer => true
  | CbUpdateDiskUsage, CbUpdateDiskUsage => true
  | _, _ => false
  end.

(** How many of the pending callbacks are [cb]. *)
Definition count_cb (cb : callback) (q : list (Z * callback)) : nat :=
  List.length (filter (fun entry => callback_eqb (snd entry) cb) q).

(** A pending clock advance waits 1000 ms, a pending tick between 1 and
    1000 ms. *)
Definition delay_ok (entry : Z * callback) : Prop :=
  match snd entry with
  | CbUpdateTimer => fst entry = 1000%Z
  | CbUpdateDiskUsage => (1 <= fst entry <= 1000)%Z
  end.

(** The live table is empty or holds the three rows of one reading. *)
Definition table_shape (s : App) : Prop :=
  Tree.rows (table_tree s) = []
  \/ exists cpu_info osu_info disk_info,
       Tree.rows (table_tree s) = live_rows cpu_info osu_info disk_info.

(** What holds of the queue, the clock, the live table and the database
    in every state of the main loop. *)
Definition loop_invariant (s : App) : Prop :=
  Forall delay_ok (pending s)
  /\ (recording s = true -> In (1000%Z, CbUpdateTimer) (pending s))
  /\ (recording s = true ->
        (1 <= elapsed_time s)%Z /\ timer_label s = clock_text (elapsed_time s))
  /\ table_shape s
  /\ (exists d, conn s = Some d).

(** The rows of the table [records], with their [id]s. *)
Definition stored (c : option Db) : list (Z * db_row) :=
  match c with
  | Some d => tbl_records d
  | None => []
  end.




(** The state [show_history] leaves on a table [d]. *)
Definition history_shown (d : Db) (s : App) : App :=
  set_history_tree
    (Some (fold_left (fun t r => Tree.insert_end r t) (Sqlite.select_all d)
                     Tree.create))
    (set_records (Sqlite.select_all d) s).

(** A machine whose second partition cannot be queried at all, and a
    database file whose [AUTOINCREMENT] counter has reached the largest
    rowid. *)
Definition world_broken : World :=
  {| cpu_percent := 10.5%float;
     virtual_memory := {| vm_total := 2048 * 1024; vm_available := 1024 * 1024 |};
     disk_partitions := [part_root; part_locked];
     disk_usage := fun m => if String.eqb m "/" then Ok usage_root
                            else Raise OSError |}.

Definition db_full : Db :=
  {| tbl_records := []; sqlite_sequence := Sqlite.max_rowid |}.

(** * Properties *)

(** ** Decimal text *)

Module PyFormatFacts.
Import PyFormat.

Lemma length_append (a b : string) :
  String.length (a ++ b) = (String.length a + String.length b)%nat.
Proof.
  induction a as [|c a IH]; simpl; [reflexivity | now rewrite IH].
Qed.

Lemma value_from_append (a b : string) (acc : Z) :
  value_from acc (a ++ b) = value_from (value_from acc a) b.
Proof.
  revert acc; induction a as [|c a IH]; intros acc; simpl;
    [reflexivity | apply IH].
Qed.

Lemma digit_value_digit (d : Z) :
  (0 <= d < 10)%Z -> digit_value (ascii_of_nat (48 + Z.to_nat d)) = d.
Proof.
  intros Hd. unfold digit_value.
  rewrite nat_ascii_embedding by lia. lia.
Qed.

Lemma value_from_digit (acc d : Z) :
  (0 <= d < 10)%Z -> value_from acc (digit d) = (10 * acc + d)%Z.
Proof.
  intros Hd. unfold digit. cbn [value_from].
  now rewrite digit_value_digit.
Qed.

Lemma digits_small (fuel : nat) (n : Z) :
  (n < 10)%Z -> digits (S fuel) n = digit n.
Proof.
  intros Hn. cbn [digits].
  destruct (Z.ltb_spec n 10); [reflexivity | lia].
Qed.

Lemma digits_large (fuel : nat) (n : Z) :
  (10 <= n)%Z ->
  digits (S fuel) n = digits fuel (n / 10) ++ digit (n mod 10).
Proof.
  intros Hn. cbn [digits].
  destruct (Z.ltb_spec n 10); [lia | reflexivity].
Qed.

Lemma digits_length_pos (fuel : nat) (n : Z) :
  (1 <= String.length (digits (S fuel) n))%nat.
Proof.
  cbn [digits]. destruct (n <? 10)%Z.
  - simpl. lia.
  - rewrite length_append. simpl. lia.
Qed.

(** With enough fuel the digits read back as the number. *)
Lemma digits_value (fuel : nat) :
  forall n, (0 <= n < 10 ^ Z.of_nat fuel)%Z ->
            int_of_string (digits fuel n) = n.
Proof.
  unfold int_of_string.
  induction fuel as [|fuel IH]; intros n Hn.
  - simpl in *. lia.
  - destruct (Z.lt_ge_cases n 10) as [Hlt|Hge].
    + rewrite digits_small by exact Hlt.
      rewrite value_from_digit by lia. lia.
    + rewrite digits_large by exact Hge.
      rewrite value_from_append, IH, value_from_digit.
      * pose proof (Z.div_mod n 10). lia.
      * apply Z.mod_pos_bound. lia.
      * rewrite Nat2Z.inj_succ, Z.pow_succ_r in Hn by lia.
        split; [apply Z.div_pos; lia|].
        apply Z.div_lt_upper_bound; lia.
Qed.

Lemma enough_fuel (n : Z) :
  (0 <= n)%Z -> (n < 10 ^ Z.of_nat (S (Z.to_nat (Z.log2 n))))%Z.
Proof.
  intros Hn.
  rewrite Nat2Z.inj_succ, Z2Nat.id by apply Z.log2_nonneg.
  destruct (Z.eq_dec n 0) as [->|Hnz].
  - simpl. lia.
  - pose proof (Z.log2_spec n ltac:(lia)) as [_ Hup].
    eapply Z.lt_le_trans; [exact Hup|].
    apply Z.pow_le_mono_l.
    pose proof (Z.log2_nonneg n). lia.
Qed.

Lemma str_nonneg_value (n : Z) :
  (0 <= n)%Z -> int_of_string (str_nonneg n) = n.
Proof.
  intros Hn. unfold str_nonneg.
  apply digits_value. split; [exact Hn | now apply enough_fuel].
Qed.

Lemma str_nonneg_one_digit (n : Z) :
  (n < 10)%Z -> str_nonneg n = digit n.
Proof. intros Hn. unfold str_nonneg. now apply digits_small. Qed.

Lemma str_nonneg_long (n : Z) :
  (10 <= n)%Z -> (2 <= String.length (str_nonneg n))%nat.
Proof.
  intros Hn. unfold str_nonneg.
  assert (Hlog : (3 <= Z.log2 n)%Z).
  { apply Z.log2_le_pow2; [lia | change (2 ^ 3)%Z with 8%Z; lia]. }
  destruct (Z.to_nat (Z.log2 n)) as [|k] eqn:Hk; [lia|].
  rewrite digits_large by exact Hn.
  rewrite length_append.
  pose proof (digits_length_pos k (n / 10)).
  change (String.length (digit (n mod 10))) with 1%nat. lia.
Qed.

Lemma str_nonneg_two_digits (n : Z) :
  (10 <= n < 100)%Z -> String.length (str_nonneg n) = 2%nat.
Proof.
  intros Hn. unfold str_nonneg.
  assert (Hlog : (3 <= Z.log2 n)%Z).
  { apply Z.log2_le_pow2; [lia | change (2 ^ 3)%Z with 8%Z; lia]. }
  destruct (Z.to_nat (Z.log2 n)) as [|k] eqn:Hk; [lia|].
  rewrite digits_large by lia.
  rewrite digits_small.
  - reflexivity.
  - apply Z.div_lt_upper_bound; lia.
Qed.

(** [{:02}] on a non-negative number pads it to two digits. *)
Lemma format_02_nonneg (n : Z) :
  (0 <= n)%Z -> format_02 n = two_digits n.
Proof.
  intros Hn. unfold format_02, two_digits.
  destruct (Z.ltb_spec n 0) as [|_]; [lia|].
  rewrite Z.abs_eq by exact Hn.
  destruct (Z.ltb_spec n 10) as [Hlt|Hge].
  - rewrite str_nonneg_one_digit by exact Hlt. reflexivity.
  - pose proof (str_nonneg_long n Hge) as Hlen.
    change (String.length "") with 0%nat.
    replace (2 - 0 - String.length (str_nonneg n))%nat with 0%nat by lia.
    reflexivity.
Qed.

Lemma two_digits_seconds (n : Z) :
  (0 <= n < 60)%Z -> String.length (two_digits n) = 2%nat.
Proof.
  intros Hn. unfold two_digits.
  destruct (Z.ltb_spec n 10) as [Hlt|Hge].
  - rewrite str_nonneg_one_digit by exact Hlt. reflexivity.
  - apply str_nonneg_two_digits. lia.
Qed.

Lemma two_digits_length (n : Z) :
  (2 <= String.length (two_digits n))%nat.
Proof.
  unfold two_digits.
  destruct (Z.ltb_spec n 10) as [Hlt|Hge].
  - rewrite str_nonneg_one_digit by exact Hlt. simpl. lia.
  - now apply str_nonneg_long.
Qed.

Lemma two_digits_value (n : Z) :
  (0 <= n)%Z -> int_of_string (two_digits n) = n.
Proof.
  intros Hn. unfold two_digits.
  destruct (n <? 10)%Z.
  - change (int_of_string ("0" ++ str_nonneg n))
      with (int_of_string (str_nonneg n)).
    now apply str_nonneg_value.
  - now apply str_nonneg_value.
Qed.

End PyFormatFacts.

(** ** The live table is emptied by the deletion loop *)

Section ClearTable.

Lemma filter_all {A : Type} (l : list A) : filter (fun _ => true) l = l.
Proof. induction l as [|x l IH]; simpl; congruence. Qed.

Lemma filter_filter {A : Type} (p q : A -> bool) (l : list A) :
  filter p (filter q l) = filter (fun x => q x && p x) l.
Proof.
  induction l as [|x l IH]; simpl; [reflexivity|].
  destruct (q x); simpl; [destruct (p x)|]; congruence.
Qed.

Lemma filter_none {A : Type} (p : A -> bool) (l : list A) :
  (forall x, In x l -> p x = false) -> filter p l = [].
Proof.
  induction l as [|x l IH]; intros H; simpl; [reflexivity|].
  rewrite (H x (or_introl eq_refl)). apply IH.
  intros y Hy. apply H. now right.
Qed.

Lemma for_each_delete (ids : list nat) :
  forall s,
    for_each ids delete_item s =
    (Ok tt,
     set_table_tree
       {| tv_items :=
            filter (fun it => negb (existsb (Nat.eqb (fst it)) ids))
                   (tv_items (table_tree s));
          tv_next_iid := tv_next_iid (table_tree s) |} s).
Proof.
  induction ids as [|i ids IH]; intros s.
  - destruct s as [ti et rc [items next] tl tlp sb hb cb stb cn rs ht pd].
    cbn. now rewrite filter_all.
  - cbn [for_each]. unfold bind at 1. unfold delete_item at 1, modify at 1.
    rewrite IH. cbn. rewrite filter_filter.
    erewrite filter_ext; [reflexivity|].
    intros it. cbn. now rewrite negb_orb.
Qed.

Lemma clear_children (s : App) :
  for_each (Tree.get_children (table_tree s)) delete_item s =
  (Ok tt,
   set_table_tree
     {| tv_items := []; tv_next_iid := tv_next_iid (table_tree s) |} s).
Proof.
  rewrite for_each_delete.
  rewrite filter_none; [reflexivity|]. intros it Hin.
  apply negb_false_iff, existsb_exists.
  exists (fst it). split.
  - unfold Tree.get_children. now apply in_map.
  - apply Nat.eqb_refl.
Qed.

End ClearTable.

(** ** Binding the parameters of the [INSERT] *)

Lemma bind_params_ok (cpu_info : float) (osu_info disk_info : Z * Z) :
  bindable osu_info disk_info ->
  Sqlite.bind_params cpu_info osu_info disk_info
  = Ok (row_of cpu_info osu_info disk_info).
Proof.
  intros (H1 & H2 & H3 & H4).
  unfold Sqlite.bind_params, Sqlite.bind_int. now rewrite H1, H2, H3, H4.
Qed.

Lemma bind_params_overflow (cpu_info : float) (osu_info disk_info : Z * Z) :
  ~ bindable osu_info disk_info ->
  Sqlite.bind_params cpu_info osu_info disk_info = Raise OverflowError.
Proof.
  intros Hnot. unfold Sqlite.bind_params, Sqlite.bind_int.
  destruct (Sqlite.fits_int64 (fst osu_info)) eqn:H1; [|reflexivity].
  destruct (Sqlite.fits_int64 (snd osu_info)) eqn:H2; [|reflexivity].
  destruct (Sqlite.fits_int64 (fst disk_info)) eqn:H3; [|reflexivity].
  destruct (Sqlite.fits_int64 (snd disk_info)) eqn:H4; [|reflexivity].
  exfalso. apply Hnot. now repeat split.
Qed.

Lemma bind_params_cases (cpu_info : float) (osu_info disk_info : Z * Z) :
  (bindable osu_info disk_info
   /\ Sqlite.bind_params cpu_info osu_info disk_info
      = Ok (row_of cpu_info osu_info disk_info))
  \/ (~ bindable osu_info disk_info
      /\ Sqlite.bind_params cpu_info osu_info disk_info = Raise OverflowError).
Proof.
  destruct (Sqlite.fits_int64 (fst osu_info)) eqn:H1;
    [destruct (Sqlite.fits_int64 (snd osu_info)) eqn:H2;
     [destruct (Sqlite.fits_int64 (fst disk_info)) eqn:H3;
      [destruct (Sqlite.fits_int64 (snd disk_info)) eqn:H4|]|]|].
  1: { left. assert (Hb : bindable osu_info disk_info) by now repeat split.
       split; [exact Hb | now apply bind_params_ok]. }
  all: right;
    assert (Hn : ~ bindable osu_info disk_info)
      by (intros (B1 & B2 & B3 & B4); congruence);
    (split; [exact Hn | now apply bind_params_overflow]).
Qed.

Lemma fits_int64_spec (z : Z) :
  Sqlite.fits_int64 z = true <-> (- 2 ^ 63 <= z < 2 ^ 63)%Z.
Proof. unfold Sqlite.fits_int64. lia. Qed.

(** ** What one call of each method does *)

Lemma update_disk_usage_idle (w : World) (s : App) :
  recording s = false -> update_disk_usage w s = (Ok tt, s).
Proof.
  intros Hr. unfold update_disk_usage, bind, get. now rewrite Hr.
Qed.

(** A tick while recording: the table is emptied; then either the disk
    reading raises, or the three rows are drawn and the row is inserted,
    which may raise too; only after all that is the next tick scheduled. *)
Lemma update_disk_usage_running (w : World) (s : App) :
  recording s = true ->
  update_disk_usage w s =
  match get_disk_usage w with
  | Raise e =>
      (Raise e,
       set_table_tree
         {| tv_items := []; tv_next_iid := tv_next_iid (table_tree s) |} s)
  | Ok disk_info =>
      let drawn :=
        set_table_tree
          (redrawn (get_cpu_usage w) (get_osu_usage w) disk_info (table_tree s))
          s in
      match conn s with
      | None => (Raise OperationalError, drawn)
      | Some d =>
          match Sqlite.bind_params
                  (get_cpu_usage w) (get_osu_usage w) disk_info with
          | Raise e => (Raise e, drawn)
          | Ok row =>
              match Sqlite.insert row d with
              | Raise e => (Raise e, drawn)
              | Ok d' =>
                  (Ok tt,
                   set_pending
                     (pending s ++ [(tick_interval s, CbUpdateDiskUsage)])
                     (set_conn (Some d') drawn))
              end
          end
      end
  end.
Proof.
  intros Hr. unfold update_disk_usage.
  unfold bind at 1. unfold get at 1. rewrite Hr. cbn [negb].
  unfold bind at 1. rewrite clear_children.
  unfold bind at 1, lift at 1.
  destruct (get_disk_usage w) as [[free total]|e]; [|reflexivity].
  unfold save_to_db, after, bind, get, lift, modify.
  cbn -[Sqlite.insert Sqlite.bind_params Z.div].
  destruct (conn s) as [d|]; [|reflexivity].
  destruct (Sqlite.bind_params _ _ _) as [row|e]; [|reflexivity].
  destruct (Sqlite.insert row d) as [d'|e]; reflexivity.
Qed.


Lemma update_timer_idle (s : App) :
  recording s = false -> update_timer s = (Ok tt, s).
Proof.
  intros Hr. unfold update_timer, bind, get. now rewrite Hr.
Qed.

Lemma update_timer_running (s : App) :
  recording s = true ->
  update_timer s =
  (Ok tt,
   set_pending (pending s ++ [(1000, CbUpdateTimer)])
     (set_timer_label
        (PyFormat.format_02 ((elapsed_time s + 1) / 60) ++ ":" ++
         PyFormat.format_02 ((elapsed_time s + 1) mod 60))
        (set_elapsed_time (elapsed_time s + 1) s))).
Proof.
  intros Hr. unfold update_timer, bind, get. rewrite Hr. reflexivity.
Qed.

Lemma stop_recording_eq (s : App) : stop_recording s = (Ok tt, stopped s).
Proof. reflexivity. Qed.

Lemma start_recording_eq (w : World) (s : App) :
  start_recording w s = (update_timer ;; update_disk_usage w) (started s).
Proof. reflexivity. Qed.

Lemma change_tick_accepted (script : list dialog_action) (n : Z) (s : App) :
  askinteger 1 1000 script = Some n -> (n <> 0)%Z ->
  change_tick script s = (Ok tt, set_tick_interval n s).
Proof.
  intros Ha Hn. unfold change_tick. rewrite Ha.
  destruct (Z.eqb_spec n 0); [contradiction | reflexivity].
Qed.

Lemma change_tick_cancelled (script : list dialog_action) (s : App) :
  askinteger 1 1000 script = None -> change_tick script s = (Ok tt, s).
Proof. intros Ha. unfold change_tick. now rewrite Ha. Qed.

(** The dialog only ever returns a number of its range. *)
Lemma askinteger_range (lo hi : Z) (script : list dialog_action) (n : Z) :
  askinteger lo hi script = Some n -> (lo <= n <= hi)%Z.
Proof.
  induction script as [|a script IH]; simpl; [discriminate|].
  destruct a as [z| |]; [|exact IH|discriminate].
  destruct (Z.ltb_spec z lo); simpl; [exact IH|].
  destruct (Z.ltb_spec hi z); [exact IH|].
  intros [= <-]. lia.
Qed.

Lemma askinteger_refused (lo hi : Z) (script : list dialog_action) :
  Forall (fun a => match a with
                   | SubmitInt z => (z < lo \/ hi < z)%Z
                   | _ => True
                   end) script ->
  askinteger lo hi script = None.
Proof.
  induction 1 as [|a script Ha _ IH]; simpl; [reflexivity|].
  destruct a as [z| |]; [|exact IH|reflexivity].
  destruct (Z.ltb_spec z lo); simpl; [exact IH|].
  destruct (Z.ltb_spec hi z); [exact IH|lia].
Qed.

(** ** The table [records] *)

Module SqliteFacts.
Import Sqlite.

Lemma largest_rowid_bound (rows : list (Z * db_row)) :
  Forall (fun i => (i <= largest_rowid rows)%Z) (map fst rows).
Proof.
  induction rows as [|[i r] rows IH]; simpl; constructor.
  - lia.
  - eapply Forall_impl; [|exact IH]. simpl. intros; lia.
Qed.

Lemma btree_insert_last (id : Z) (r : db_row) (rows : list (Z * db_row)) :
  Forall (fun i => (i < id)%Z) (map fst rows) ->
  btree_insert id r rows = (rows ++ [(id, r)])%list.
Proof.
  induction rows as [|[i r'] rows IH]; simpl; intros H; [reflexivity|].
  inversion H as [|? ? Hi Hrest]; subst.
  destruct (Z.ltb_spec id i); [lia|].
  now rewrite IH.
Qed.

Lemma ids_below_next (d : Db) :
  Forall (fun i => (i < last_rowid d + 1)%Z) (ids d).
Proof.
  unfold ids, last_rowid.
  eapply Forall_impl; [|apply largest_rowid_bound]. simpl. intros; lia.
Qed.

(** While the largest rowid has not been reached an insert succeeds, gives
    the row the next [id], and puts it after all the others. *)
Lemma insert_ok (r : db_row) (d : Db) :
  (last_rowid d < max_rowid)%Z ->
  insert r d =
  Ok {| tbl_records := tbl_records d ++ [(last_rowid d + 1, r)]%Z;
        sqlite_sequence := (last_rowid d + 1)%Z |}.
Proof.
  intros Hroom. unfold insert.
  destruct (Z.leb_spec max_rowid (last_rowid d)); [lia|].
  rewrite btree_insert_last by apply ids_below_next.
  reflexivity.
Qed.

Lemma insert_full (r : db_row) (d : Db) :
  (max_rowid <= last_rowid d)%Z -> insert r d = Raise OperationalError.
Proof.
  intros Hfull. unfold insert.
  destruct (Z.leb_spec max_rowid (last_rowid d)); [reflexivity|lia].
Qed.




End SqliteFacts.

(** ** What the main loop preserves *)

(** Reading an attribute of a state built by the setters. *)
Ltac attrs :=
  cbn [tick_interval elapsed_time recording table_tree timer_label
       timer_label_packed start_button history_button change_tick_button
       stop_button conn records history_tree pending
       set_tick_interval set_elapsed_time set_recording set_table_tree
       set_timer_label set_timer_label_packed set_start_button
       set_history_button set_change_tick_button set_stop_button set_conn
       set_records set_history_tree set_pending started stopped snd fst negb]
    in *.

Lemma same_control_refl (s : App) : same_control s s.
Proof. unfold same_control. repeat split. Qed.

Lemma same_control_trans (s1 s2 s3 : App) :
  same_control s1 s2 -> same_control s2 s3 -> same_control s1 s3.
Proof.
  unfold same_control.
  intros (A1 & A2 & A3 & A4 & A5 & A6 & A7 & A8)
         (B1 & B2 & B3 & B4 & B5 & B6 & B7 & B8).
  repeat split; congruence.
Qed.

Lemma invariant_same_control (s s' : App) :
  same_control s s' -> invariant s -> invariant s'.
Proof.
  unfold same_control, invariant, interval_in_range, ui_matches_mode,
    idle_clock_zero.
  intros (A1 & A2 & A3 & A4 & A5 & A6 & A7 & A8)
         (Hi & (U1 & U2 & U3 & U4 & U5) & Hz).
  rewrite A1, A2, A3, A4, A5, A6, A7, A8. tauto.
Qed.

Lemma exec_bind {A B : Type} (m : M A) (k : A -> M B) (s : App) :
  exec (bind m k) s =
  match m s with
  | (Ok a, s') => exec (k a) s'
  | (Raise _, s') => s'
  end.
Proof. unfold exec, bind. destruct (m s) as [[a|e] s']; reflexivity. Qed.

Lemma for_each_same_control {A : Type} (body : A -> M unit) :
  (forall x s, same_control s (exec (body x) s)) ->
  forall xs s, same_control s (exec (for_each xs body) s).
Proof.
  intros Hbody xs. induction xs as [|x xs IH]; intros s.
  - apply same_control_refl.
  - cbn [for_each]. rewrite exec_bind.
    specialize (Hbody x s). unfold exec in Hbody.
    destruct (body x s) as [[[]|e] s']; cbn [snd] in Hbody.
    + eapply same_control_trans; [exact Hbody | apply IH].
    + exact Hbody.
Qed.

Lemma update_disk_usage_same_control (w : World) (s : App) :
  same_control s (exec (update_disk_usage w) s).
Proof.
  unfold exec. destruct (recording s) eqn:Hr.
  - rewrite update_disk_usage_running by exact Hr.
    destruct (get_disk_usage w) as [disk_info|e]; cbn [snd];
      [|repeat split].
    cbv zeta. destruct (conn s) as [d|]; [|repeat split].
    destruct (Sqlite.bind_params _ _ _) as [row|e]; [|repeat split].
    destruct (Sqlite.insert row d); repeat split.
  - rewrite update_disk_usage_idle by exact Hr. apply same_control_refl.
Qed.

Lemma show_history_same_control (s : App) :
  same_control s (exec show_history s).
Proof.
  unfold exec, show_history, bind, get, modify. cbn beta iota.
  destruct (conn s) as [d|]; [|apply same_control_refl].
  cbn beta iota.
  match goal with
  | |- same_control _ (snd (for_each ?xs ?body ?s1)) =>
      apply (same_control_trans s s1 (exec (for_each xs body) s1));
        [repeat split | apply for_each_same_control]
  end.
  intros record s0. repeat split.
Qed.

Lemma change_tick_invariant (script : list dialog_action) (s : App) :
  invariant s -> invariant (exec (change_tick script) s).
Proof.
  intros Hinv. unfold exec, change_tick.
  destruct (askinteger 1 1000 script) as [n|] eqn:Ha; [|exact Hinv].
  destruct (n =? 0)%Z; [exact Hinv|].
  apply askinteger_range in Ha.
  destruct Hinv as (Hi & Hu & Hz).
  unfold invariant, interval_in_range, ui_matches_mode, idle_clock_zero, modify
    in *.
  attrs. repeat split; try apply Hu; try lia. exact Hz.
Qed.

Lemma exec_start_recording (w : World) (s : App) :
  exec (start_recording w) s =
  exec (update_disk_usage w) (exec update_timer (started s)).
Proof.
  unfold exec. rewrite start_recording_eq. unfold bind at 1.
  rewrite (update_timer_running (started s) eq_refl). reflexivity.
Qed.

Lemma update_timer_invariant (s : App) :
  invariant s -> invariant (exec update_timer s).
Proof.
  intros (Hi & Hu & Hz). unfold exec.
  destruct (recording s) eqn:Hr.
  - rewrite update_timer_running by exact Hr.
    unfold invariant, interval_in_range, ui_matches_mode, idle_clock_zero in *.
    attrs. rewrite Hr in *. repeat split; try apply Hi; try apply Hu.
    discriminate.
  - rewrite update_timer_idle by exact Hr. exact (conj Hi (conj Hu Hz)).
Qed.

Lemma started_invariant (s : App) : invariant s -> invariant (started s).
Proof.
  intros (Hi & Hu & Hz).
  unfold invariant, interval_in_range, ui_matches_mode, idle_clock_zero in *.
  attrs. repeat split; try apply Hi. discriminate.
Qed.

Lemma stopped_invariant (s : App) : invariant s -> invariant (stopped s).
Proof.
  intros (Hi & Hu & Hz).
  unfold invariant, interval_in_range, ui_matches_mode, idle_clock_zero in *.
  attrs. repeat split; apply Hi.
Qed.

Lemma start_recording_invariant (w : World) (s : App) :
  invariant s -> invariant (exec (start_recording w) s).
Proof.
  intros Hinv. rewrite exec_start_recording.
  apply (invariant_same_control (exec update_timer (started s))).
  - apply update_disk_usage_same_control.
  - now apply update_timer_invariant, started_invariant.
Qed.

Lemma stop_recording_invariant (s : App) :
  invariant s -> invariant (exec stop_recording s).
Proof.
  intros Hinv. unfold exec. rewrite stop_recording_eq.
  now apply stopped_invariant.
Qed.

Lemma timer_invariant (cb : callback) (w : World) (q : list (Z * callback))
    (s : App) :
  invariant s -> invariant (exec (run_callback cb w) (set_pending q s)).
Proof.
  intros Hinv.
  assert (Hq : invariant (set_pending q s)).
  { apply (invariant_same_control s); [repeat split | exact Hinv]. }
  destruct cb; cbn [run_callback].
  - now apply update_timer_invariant.
  - apply (invariant_same_control (set_pending q s));
      [apply update_disk_usage_same_control | exact Hq].
Qed.

(** The second [setup_db] of the [__main__] block finds the table and
    changes nothing. *)
Lemma setup_db_again (file : option Db) :
  setup_db (init file) = (Ok tt, init file).
Proof. destruct file; vm_compute; reflexivity. Qed.

Lemma init_invariant (file : option Db) : invariant (init file).
Proof.
  destruct file as [d|]; repeat split; cbn; lia.
Qed.

Lemma dispatch_invariant (ev : event) (s s' : App) :
  invariant s -> dispatch ev s = Some s' -> invariant s'.
Proof.
  intros Hinv. destruct ev as [w| | |script|k w]; cbn [dispatch].
  - destruct (start_button s); [|discriminate].
    intros [= <-]. now apply start_recording_invariant.
  - destruct (stop_button s); [|discriminate].
    intros [= <-]. now apply stop_recording_invariant.
  - destruct (history_button s); [|discriminate].
    intros [= <-].
    apply (invariant_same_control s);
      [apply show_history_same_control | exact Hinv].
  - destruct (change_tick_button s); [|discriminate].
    intros [= <-]. now apply change_tick_invariant.
  - destruct (nth_error (pending s) k) as [[ms cb]|]; [|discriminate].
    intros [= <-]. now apply timer_invariant.
Qed.

Lemma reachable_invariant (s : App) : reachable s -> invariant s.
Proof.
  induction 1 as [file|s s' ev _ IH Hstep].
  - apply init_invariant.
  - eapply dispatch_invariant; eassumption.
Qed.

Lemma run_reachable (evs : list event) :
  forall s s', reachable s -> run evs s = Some s' -> reachable s'.
Proof.
  induction evs as [|ev evs IH]; intros s s' Hs; cbn [run].
  - now intros [= <-].
  - destruct (dispatch ev s) as [s1|] eqn:Hstep; [|discriminate].
    apply IH. now apply (reachable_step s s1 ev).
Qed.

(** A tick that meets a readable disk, a reading that can be bound and a
    table with room runs to its end. *)
Lemma tick_completes (w : World) (s : App) (d : Db) (disk_info : Z * Z) :
  recording s = true -> conn s = Some d -> has_room 1 d ->
  get_disk_usage w = Ok disk_info ->
  bindable (get_osu_usage w) disk_info ->
  update_disk_usage w s = (Ok tt, ticked w disk_info d s).
Proof.
  intros Hr Hc Hroom Hd Hb.
  rewrite update_disk_usage_running by exact Hr.
  rewrite Hd. cbv zeta. rewrite Hc.
  rewrite (bind_params_ok _ _ _ Hb).
  rewrite SqliteFacts.insert_ok by (unfold has_room in Hroom; lia).
  reflexivity.
Qed.

(** ** Disk totals *)

Lemma sum_over_cons {A : Type} (f : A -> Z) (x : A) (l : list A) :
  sum_over f (x :: l) = (f x + sum_over f l)%Z.
Proof. reflexivity. Qed.

Lemma disk_loop_sums (w : World) (ps : list sdiskpart) :
  Forall (answers_or_denies w) ps ->
  forall total free,
    disk_loop w ps total free =
    Ok (total + sum_over (total_bytes w)
                  (filter (fun p => negb (raises_permission_error w p)) ps),
        free + sum_over (free_bytes w)
                  (filter (fun p => negb (raises_permission_error w p)) ps))%Z.
Proof.
  induction 1 as [|p ps Hp _ IH]; intros total free; cbn [disk_loop filter].
  - cbn. now rewrite !Z.add_0_r.
  - destruct Hp as [[u Hu]|Hdenied].
    + assert (Hp : raises_permission_error w p = false).
      { unfold raises_permission_error. now rewrite Hu. }
      assert (Ht : total_bytes w p = du_total u).
      { unfold total_bytes. now rewrite Hu. }
      assert (Hf : free_bytes w p = du_free u).
      { unfold free_bytes. now rewrite Hu. }
      rewrite Hu, Hp, IH. cbn [negb].
      rewrite !sum_over_cons, Ht, Hf.
      f_equal. f_equal; lia.
    + assert (Hp : raises_permission_error w p = true).
      { unfold raises_permission_error. now rewrite Hdenied. }
      rewrite Hdenied, Hp. cbn [negb]. apply IH.
Qed.

Lemma readable_skips (w : World) (pre post : list sdiskpart) (p : sdiskpart) :
  raises_permission_error w p = true ->
  filter (fun p => negb (raises_permission_error w p)) (pre ++ p :: post) =
  filter (fun p => negb (raises_permission_error w p)) (pre ++ post).
Proof.
  intros Hp. rewrite !filter_app. cbn [filter]. now rewrite Hp.
Qed.

Lemma get_disk_usage_readable (w : World) :
  Forall (answers_or_denies w) (disk_partitions w) ->
  get_disk_usage w =
  Ok (sum_over (free_bytes w) (readable w) / 1024,
      sum_over (total_bytes w) (readable w) / 1024)%Z.
Proof.
  intros H. unfold get_disk_usage.
  rewrite (disk_loop_sums w _ H). reflexivity.
Qed.

(** C4. [get_disk_usage] returns the free bytes and the total bytes summed
    over exactly the partitions whose query does not raise a permission
    error, each sum divided by 1024; a partition that raises one can be
    left out without changing the result; with a readable partition of
    512 KiB free out of 1024 KiB and an unreadable one the result is
    (512, 1024). *)
Theorem get_disk_usage_sums_readable (w : World)
    (Hanswers : Forall (answers_or_denies w) (disk_partitions w)) :
  get_disk_usage w =
    Ok (sum_over (free_bytes w) (readable w) / 1024,
        sum_over (total_bytes w) (readable w) / 1024)%Z
  /\ (forall pre p post,
        disk_partitions w = (pre ++ p :: post)%list ->
        raises_permission_error w p = true ->
        get_disk_usage w = get_disk_usage (with_partitions (pre ++ post) w))
  /\ (forall p1 p2 u,
        disk_partitions w = [p1; p2] \/ disk_partitions w = [p2; p1] ->
        disk_usage w (mountpoint p1) = Ok u ->
        du_free u = (512 * 1024)%Z -> du_total u = (1024 * 1024)%Z ->
        raises_permission_error w p2 = true ->
        get_disk_usage w = Ok (512, 1024)%Z).
Proof.
  split; [now apply get_disk_usage_readable|]. split.
  - intros pre p post Hps Hp.
    rewrite get_disk_usage_readable by exact Hanswers.
    rewrite get_disk_usage_readable.
    + unfold readable. cbn [disk_partitions with_partitions].
      rewrite Hps, readable_skips by exact Hp. reflexivity.
    + cbn [disk_partitions with_partitions].
      rewrite Hps in Hanswers.
      apply Forall_app in Hanswers as [Hpre Hpost].
      inversion Hpost; subst. apply Forall_app. now split.
  - intros p1 p2 u Hps Hu Hfree Htotal Hp2.
    rewrite get_disk_usage_readable by exact Hanswers.
    assert (Hp1 : raises_permission_error w p1 = false).
    { unfold raises_permission_error. now rewrite Hu. }
    unfold readable.
    assert (Ht : total_bytes w p1 = (1024 * 1024)%Z).
    { unfold total_bytes. now rewrite Hu. }
    assert (Hf : free_bytes w p1 = (512 * 1024)%Z).
    { unfold free_bytes. now rewrite Hu. }
    destruct Hps as [-> | ->]; cbn [filter]; rewrite Hp1, Hp2;
      cbn [negb]; rewrite !sum_over_cons, Ht, Hf; reflexivity.
Qed.

Lemma get_disk_usage_sums_readable_witness :
  get_disk_usage world_fixed = Ok (512, 1024)%Z.
Proof.
  assert (H : Forall (answers_or_denies world_fixed)
                     (disk_partitions world_fixed)).
  { apply Forall_cons; [left; exists usage_root; reflexivity|].
    apply Forall_cons; [right; reflexivity | apply Forall_nil]. }
  exact (proj2 (proj2 (get_disk_usage_sums_readable world_fixed H))
           part_root part_locked usage_root
           (or_introl eq_refl) eq_refl eq_refl eq_refl eq_refl).
Defined.

(** Any other exception of a query leaves [get_disk_usage]. *)
Lemma get_disk_usage_propagates (w : World) (p : sdiskpart)
    (rest : list sdiskpart) :
  disk_partitions w = p :: rest ->
  disk_usage w (mountpoint p) = Raise OSError ->
  get_disk_usage w = Raise OSError.
Proof.
  intros Hps Hp. unfold get_disk_usage. rewrite Hps. cbn [disk_loop].
  now rewrite Hp.
Qed.

(** ** The clock *)

(** C5. While recording, one call of [update_timer] adds one to
    [elapsed_time] and writes it to the clock label as minutes, colon,
    seconds: the minutes are [elapsed_time // 60] in at least two digits and
    are never reduced to hours, the seconds are the remainder in exactly two
    digits; 1 reads 00:01, 61 reads 01:01 and 3661 reads 61:01.  The next
    advance is scheduled 1000 ms later. *)
Theorem update_timer_advances_clock (s : App)
    (Hrunning : recording s = true) (Hnonneg : (0 <= elapsed_time s)%Z) :
  let elapsed := (elapsed_time s + 1)%Z in
  (exists s',
      update_timer s = (Ok tt, s')
      /\ elapsed_time s' = elapsed
      /\ timer_label s' = clock_text elapsed
      /\ pending s' = (pending s ++ [(1000%Z, CbUpdateTimer)])%list)
  /\ clock_text elapsed =
       two_digits (elapsed / 60) ++ ":" ++ two_digits (elapsed mod 60)
  /\ PyFormat.int_of_string (two_digits (elapsed / 60)) = (elapsed / 60)%Z
  /\ PyFormat.int_of_string (two_digits (elapsed mod 60)) = (elapsed mod 60)%Z
  /\ (2 <= String.length (two_digits (elapsed / 60)))%nat
  /\ String.length (two_digits (elapsed mod 60)) = 2%nat
  /\ (elapsed_time s = 0%Z -> clock_text elapsed = "00:01")
  /\ (elapsed_time s = 60%Z -> clock_text elapsed = "01:01")
  /\ (elapsed_time s = 3660%Z -> clock_text elapsed = "61:01").
Proof.
  intros elapsed.
  assert (Hm : (0 <= elapsed / 60)%Z) by (apply Z.div_pos; subst elapsed; lia).
  assert (Hs : (0 <= elapsed mod 60 < 60)%Z) by (apply Z.mod_pos_bound; lia).
  split; [|repeat split].
  - eexists. split; [apply update_timer_running; exact Hrunning|].
    attrs. repeat split.
    fold elapsed. unfold clock_text.
    now rewrite !PyFormatFacts.format_02_nonneg by lia.
  - now apply PyFormatFacts.two_digits_value.
  - apply PyFormatFacts.two_digits_value. lia.
  - apply PyFormatFacts.two_digits_length.
  - now apply PyFormatFacts.two_digits_seconds.
  - intros He. subst elapsed. rewrite He. reflexivity.
  - intros He. subst elapsed. rewrite He. reflexivity.
  - intros He. subst elapsed. rewrite He. reflexivity.
Qed.

Lemma update_timer_advances_clock_witness :
  exists s',
    update_timer (set_elapsed_time 3660 app_recording) = (Ok tt, s')
    /\ elapsed_time s' = 3661%Z
    /\ timer_label s' = "61:01"
    /\ pending s' = [(1000%Z, CbUpdateTimer)].
Proof.
  assert (Hnonneg : (0 <= elapsed_time (set_elapsed_time 3660 app_recording))%Z).
  { cbn [elapsed_time set_elapsed_time]. lia. }
  exact (proj1 (update_timer_advances_clock
                  (set_elapsed_time 3660 app_recording) eq_refl Hnonneg)).
Defined.

(** ** The tick interval *)

Lemma tick_interval_changes_only_in_dialog (ev : event) (s s' : App) :
  dispatch ev s = Some s' ->
  tick_interval s' = tick_interval s
  \/ exists script,
       ev = ClickChangeTick script
       /\ askinteger 1 1000 script = Some (tick_interval s').
Proof.
  destruct ev as [w| | |script|k w]; cbn [dispatch].
  - destruct (start_button s); [|discriminate]. intros [= <-]. left.
    rewrite exec_start_recording.
    destruct (update_disk_usage_same_control w (exec update_timer (started s)))
      as (-> & _).
    unfold exec. rewrite update_timer_running by reflexivity. reflexivity.
  - destruct (stop_button s); [|discriminate]. intros [= <-]. left.
    reflexivity.
  - destruct (history_button s); [|discriminate]. intros [= <-]. left.
    apply show_history_same_control.
  - destruct (change_tick_button s); [|discriminate]. intros [= <-].
    unfold exec, change_tick.
    destruct (askinteger 1 1000 script) as [n|] eqn:Ha; [|now left].
    destruct (n =? 0)%Z; [now left|].
    right. exists script. now split.
  - destruct (nth_error (pending s) k) as [[ms cb]|]; [|discriminate].
    intros [= <-]. left. destruct cb; cbn [run_callback].
    + unfold exec.
      destruct (recording (set_pending (remove_nth k (pending s)) s)) eqn:Hr.
      * rewrite update_timer_running by exact Hr. reflexivity.
      * rewrite update_timer_idle by exact Hr. reflexivity.
    + destruct (update_disk_usage_same_control w
                  (set_pending (remove_nth k (pending s)) s)) as (-> & _).
      reflexivity.
Qed.

(** C9. The tick interval is 1000 after [__init__] and lies between 1 and
    1000 in every state the application can reach. *)
Theorem tick_interval_always_in_range (s : App) (Hreach : reachable s) :
  (1 <= tick_interval s <= 1000)%Z.
Proof.
  apply (reachable_invariant s Hreach).
Qed.

Lemma tick_interval_always_in_range_witness :
  exists s,
    run session_retimed app_fresh = Some s
    /\ (1 <= tick_interval s <= 1000)%Z.
Proof.
  destruct (run session_retimed app_fresh) as [s|] eqn:Hrun;
    [|vm_compute in Hrun; discriminate].
  exists s. split; [reflexivity|].
  apply tick_interval_always_in_range.
  apply (run_reachable session_retimed app_fresh s);
    [apply (reachable_init None) | exact Hrun].
Defined.

Lemma tick_interval_initially_1000 (file : option Db) :
  tick_interval (init file) = 1000%Z.
Proof. destruct file; reflexivity. Qed.

(** ** Facts about the concrete inputs *)

Lemma world_fixed_disk :
  get_disk_usage world_fixed = Ok (512, 1024)%Z.
Proof. reflexivity. Qed.

Lemma has_room_empty : has_room 1 Sqlite.empty_table.
Proof. unfold has_room. vm_compute. discriminate. Qed.

(** ** The live table *)

Lemma redrawn_rows (cpu_info : float) (osu_info disk_info : Z * Z)
    (t : Treeview live_row) :
  Tree.rows (redrawn cpu_info osu_info disk_info t) =
  live_rows cpu_info osu_info disk_info.
Proof. reflexivity. Qed.

(** A tick that returns has drawn exactly the rows of its reading. *)
Lemma tick_returned (w : World) (s s' : App) :
  recording s = true ->
  update_disk_usage w s = (Ok tt, s') ->
  exists disk_info,
    get_disk_usage w = Ok disk_info
    /\ table_tree s' =
       redrawn (get_cpu_usage w) (get_osu_usage w) disk_info (table_tree s).
Proof.
  intros Hr. rewrite update_disk_usage_running by exact Hr.
  destruct (get_disk_usage w) as [disk_info|e]; [|discriminate].
  cbv zeta. destruct (conn s) as [d|]; [|discriminate].
  destruct (Sqlite.bind_params _ _ _) as [row|e]; [|discriminate].
  destruct (Sqlite.insert row d) as [d'|e]; [|discriminate].
  intros [= <-]. exists disk_info. split; reflexivity.
Qed.

Lemma for_each_snoc {A : Type} (body : A -> M unit) (xs : list A) (x : A) :
  forall s,
    for_each (xs ++ [x]) body s = (for_each xs body ;; body x) s.
Proof.
  induction xs as [|y xs IH]; intros s; cbn [for_each app].
  - unfold bind, ret. destruct (body x s) as [[[]|e] s']; reflexivity.
  - unfold bind. destruct (body y s) as [[[]|e] s1]; [|reflexivity].
    rewrite IH. reflexivity.
Qed.

Lemma for_each_recording (ws : list World) :
  forall s, recording (exec (for_each ws update_disk_usage) s) = recording s.
Proof.
  intros s.
  apply (for_each_same_control update_disk_usage
           (fun w s0 => update_disk_usage_same_control w s0) ws s).
Qed.

(** C10. A tick that runs while recording first empties the live table and
    then inserts the three rows of its reading, so whenever a tick has run
    to its end the table holds exactly three rows, those of that tick,
    however many ticks ran before it; and a tick does run to its end when the
    disk reading succeeds, its numbers can be bound and the table [records]
    has room. *)
Theorem tick_leaves_three_rows (w : World) (s : App)
    (Hrunning : recording s = true) :
  (forall s',
      update_disk_usage w s = (Ok tt, s') ->
      exists disk_info,
        get_disk_usage w = Ok disk_info
        /\ table_tree s' =
           redrawn (get_cpu_usage w) (get_osu_usage w) disk_info (table_tree s)
        /\ Tree.rows (table_tree s') =
           live_rows (get_cpu_usage w) (get_osu_usage w) disk_info
        /\ List.length (Tree.rows (table_tree s')) = 3%nat)
  /\ (forall earlier s',
        for_each (earlier ++ [w]) update_disk_usage s = (Ok tt, s') ->
        exists disk_info,
          get_disk_usage w = Ok disk_info
          /\ Tree.rows (table_tree s') =
             live_rows (get_cpu_usage w) (get_osu_usage w) disk_info
          /\ List.length (Tree.rows (table_tree s')) = 3%nat)
  /\ (forall disk_info d,
        get_disk_usage w = Ok disk_info -> conn s = Some d -> has_room 1 d ->
        bindable (get_osu_usage w) disk_info ->
        exists s', update_disk_usage w s = (Ok tt, s')).
Proof.
  split; [|split].
  - intros s' Htick.
    destruct (tick_returned w s s' Hrunning Htick) as (disk_info & Hd & Ht).
    exists disk_info. rewrite Ht, redrawn_rows. repeat split. exact Hd.
  - intros earlier s' Hticks.
    rewrite for_each_snoc in Hticks. unfold bind in Hticks.
    pose proof (for_each_recording earlier s) as Hrec. unfold exec in Hrec.
    destruct (for_each earlier update_disk_usage s) as [[[]|e] s1];
      [|discriminate].
    cbn [snd] in Hrec. rewrite Hrunning in Hrec.
    destruct (tick_returned w s1 s' Hrec Hticks) as (disk_info & Hd & Ht).
    exists disk_info. rewrite Ht, redrawn_rows. repeat split. exact Hd.
  - intros disk_info d Hd Hc Hroom Hb.
    eexists. now apply (tick_completes w s d disk_info).
Qed.

Lemma tick_leaves_three_rows_witness :
  Tree.rows (table_tree app_ticked) =
    live_rows 10.5%float (1024, 2048)%Z (512, 1024)%Z
  /\ (exists s',
        update_disk_usage world_busy app_ticked = (Ok tt, s')
        /\ Tree.rows (table_tree s') =
           live_rows 73.25%float (3000, 8192)%Z (1512, 5120)%Z)
  /\ (exists s',
        for_each ([world_fixed; world_fixed; world_fixed] ++ [world_busy])
          update_disk_usage app_recording = (Ok tt, s')
        /\ Tree.rows (table_tree s') =
           live_rows 73.25%float (3000, 8192)%Z (1512, 5120)%Z).
Proof.
  assert (Hrunning : recording app_ticked = true) by reflexivity.
  assert (Hdisk : get_disk_usage world_busy = Ok (1512, 5120)%Z)
    by reflexivity.
  split; [reflexivity|]. split.
  - assert (Hconn : exists d, conn app_ticked = Some d /\ has_room 1 d).
    { eexists. split; [reflexivity|]. unfold has_room. vm_compute.
      discriminate. }
    destruct Hconn as (d & Hconn & Hroom).
    assert (Hb : bindable (get_osu_usage world_busy) (1512, 5120)%Z)
      by (repeat split; reflexivity).
    destruct (proj2 (proj2 (tick_leaves_three_rows world_busy app_ticked
                              Hrunning))
                (1512, 5120)%Z d Hdisk Hconn Hroom Hb) as [s' Hs'].
    exists s'. split; [exact Hs'|].
    destruct (proj1 (tick_leaves_three_rows world_busy app_ticked Hrunning)
                s' Hs') as (disk_info & Hd & _ & Hrows & _).
    rewrite Hrows. rewrite Hdisk in Hd. injection Hd as <-. reflexivity.
  - destruct (for_each ([world_fixed; world_fixed; world_fixed]
                        ++ [world_busy]) update_disk_usage app_recording)
      as [[[]|e] s'] eqn:Hticks; [|vm_compute in Hticks; discriminate].
    exists s'. split; [reflexivity|].
    destruct (proj1 (proj2 (tick_leaves_three_rows world_busy app_recording
                              eq_refl))
                [world_fixed; world_fixed; world_fixed] s' Hticks)
      as (disk_info & Hd & Hrows & _).
    rewrite Hrows. rewrite Hdisk in Hd. injection Hd as <-. reflexivity.
Defined.

(** ** Callbacks that come due while idle *)

Lemma set_pending_same (s : App) : set_pending (pending s) s = s.
Proof. destruct s; reflexivity. Qed.

Lemma remove_nth_length {A : Type} (l : list A) :
  forall k x, nth_error l k = Some x ->
              S (List.length (remove_nth k l)) = List.length l.
Proof.
  induction l as [|y l IH]; intros [|k] x; cbn; try discriminate.
  - reflexivity.
  - intros H. now rewrite (IH k x H).
Qed.

Lemma remove_nth_In {A : Type} (l : list A) :
  forall k x, In x (remove_nth k l) -> In x l.
Proof.
  induction l as [|y l IH]; intros [|k] x; cbn; auto.
  intros [->|H]; [now left | right; now apply (IH k)].
Qed.

(** While idle a callback that comes due only leaves the queue. *)
Lemma idle_timer_step (k : nat) (w : World) (s s' : App) :
  recording s = false ->
  dispatch (Timer k w) s = Some s' ->
  s' = set_pending (remove_nth k (pending s)) s
  /\ S (List.length (pending s')) = List.length (pending s).
Proof.
  intros Hidle. cbn [dispatch].
  destruct (nth_error (pending s) k) as [[ms cb]|] eqn:Hk; [|discriminate].
  intros [= <-].
  assert (Hstep : exec (run_callback cb w)
                    (set_pending (remove_nth k (pending s)) s)
                  = set_pending (remove_nth k (pending s)) s).
  { unfold exec. destruct cb; cbn [run_callback].
    - now rewrite update_timer_idle.
    - now rewrite update_disk_usage_idle. }
  rewrite Hstep. split; [reflexivity|].
  cbn [pending set_pending]. now apply remove_nth_length with (x := (ms, cb)).
Qed.

Lemma idle_timer_run (evs : list event) :
  forall s s',
    recording s = false -> Forall is_timer evs -> run evs s = Some s' ->
    s' = set_pending (pending s') s
    /\ (List.length (pending s') + List.length evs = List.length (pending s))%nat
    /\ (forall entry, In entry (pending s') -> In entry (pending s)).
Proof.
  induction evs as [|ev evs IH]; intros s s' Hidle Hevs; cbn [run].
  - intros [= <-]. rewrite set_pending_same. repeat split; auto.
  - inversion Hevs as [|? ? Hev Hrest]; subst.
    destruct ev as [| | | |k w]; try contradiction.
    destruct (dispatch (Timer k w) s) as [s1|] eqn:Hstep; [|discriminate].
    intros Hrun.
    destruct (idle_timer_step k w s s1 Hidle Hstep) as (Hs1 & Hlen).
    assert (Hidle1 : recording s1 = false) by (rewrite Hs1; exact Hidle).
    destruct (IH s1 s' Hidle1 Hrest Hrun) as (Hs' & Hlen' & Hin).
    repeat split.
    + rewrite Hs', Hs1. reflexivity.
    + cbn [List.length]. lia.
    + intros entry He. apply Hin in He. rewrite Hs1 in He.
      cbn [pending set_pending] in He. now apply remove_nth_In in He.
Qed.

(** C7. While [recording] is false a tick does nothing: it draws nothing,
    stores nothing and schedules nothing, and so does a clock advance.
    Hence after a stop, however the pending callbacks come due, the state
    stays as it is but for the queue, which only loses the entries that ran:
    no tick is ever scheduled again. *)
Theorem idle_tick_never_reschedules (s : App) (Hidle : recording s = false) :
  (forall w, update_disk_usage w s = (Ok tt, s))
  /\ update_timer s = (Ok tt, s)
  /\ (forall evs s',
        Forall is_timer evs -> run evs s = Some s' ->
        s' = set_pending (pending s') s
        /\ (List.length (pending s') + List.length evs
            = List.length (pending s))%nat
        /\ (forall entry, In entry (pending s') -> In entry (pending s))).
Proof.
  split; [|split].
  - intros w. now apply update_disk_usage_idle.
  - now apply update_timer_idle.
  - intros evs s' Hevs Hrun. now apply (idle_timer_run evs s s').
Qed.

Lemma idle_tick_never_reschedules_witness :
  exists s,
    run session_stopped app_fresh = Some s
    /\ update_disk_usage world_fixed s = (Ok tt, s)
    /\ run [Timer 1 world_fixed; Timer 0 world_fixed] s
       = Some (set_pending [] s).
Proof.
  destruct (run session_stopped app_fresh) as [s|] eqn:Hrun;
    [|vm_compute in Hrun; discriminate].
  assert (Hidle : recording s = false).
  { vm_compute in Hrun. injection Hrun as <-. reflexivity. }
  exists s. split; [reflexivity|].
  split; [exact (proj1 (idle_tick_never_reschedules s Hidle) world_fixed)|].
  vm_compute in Hrun. injection Hrun as <-. reflexivity.
Defined.

(** ** Stop, then start *)

Lemma idle_at_zero_step (ev : event) (s s' : App) :
  idle_at_zero s -> not_start ev -> dispatch ev s = Some s' ->
  idle_at_zero s'.
Proof.
  intros (Hr & He & Hsb & Hst) Hev.
  assert (Hsame : forall s1, same_control s s1 -> idle_at_zero s1).
  { intros s1 (A1 & A2 & A3 & A4 & A5 & A6 & A7 & A8).
    unfold idle_at_zero. rewrite A2, A3, A4, A7. now repeat split. }
  destruct ev as [w| | |script|k w]; cbn [dispatch]; [contradiction| | | |].
  - rewrite Hst. discriminate.
  - destruct (history_button s); [|discriminate]. intros [= <-].
    apply Hsame, show_history_same_control.
  - destruct (change_tick_button s); [|discriminate]. intros [= <-].
    unfold exec, change_tick.
    destruct (askinteger 1 1000 script) as [n|];
      [destruct (n =? 0)%Z|]; now repeat split.
  - intros Hstep.
    destruct (idle_timer_step k w s s' Hr Hstep) as (-> & _).
    now repeat split.
Qed.

Lemma idle_at_zero_run (evs : list event) :
  forall s s',
    idle_at_zero s -> Forall not_start evs -> run evs s = Some s' ->
    idle_at_zero s'.
Proof.
  induction evs as [|ev evs IH]; intros s s' Hs Hevs; cbn [run].
  - now intros [= <-].
  - inversion Hevs as [|? ? Hev Hrest]; subst.
    destruct (dispatch ev s) as [s1|] eqn:Hstep; [|discriminate].
    apply IH; [|exact Hrest].
    now apply (idle_at_zero_step ev s s1).
Qed.

Lemma stopped_idle_at_zero (s : App) : idle_at_zero (exec stop_recording s).
Proof. now repeat split. Qed.

(** [start_recording] adds one to whatever [elapsed_time] was. *)
Lemma start_recording_elapsed (w : World) (s : App) :
  elapsed_time (exec (start_recording w) s) = (elapsed_time s + 1)%Z.
Proof.
  rewrite exec_start_recording.
  destruct (update_disk_usage_same_control w (exec update_timer (started s)))
    as (_ & -> & _).
  unfold exec. rewrite update_timer_running by reflexivity. reflexivity.
Qed.

Lemma start_recording_recording (w : World) (s : App) :
  recording (exec (start_recording w) s) = true.
Proof.
  rewrite exec_start_recording.
  destruct (update_disk_usage_same_control w (exec update_timer (started s)))
    as (_ & _ & -> & _).
  unfold exec. rewrite update_timer_running by reflexivity. reflexivity.
Qed.

(** C8, as the specification words it, fails: after a start, a stop and a
    start again, with no callback having come due, the clock is at 1, not
    at 0, because [start_recording] runs the first clock advance itself. *)
Lemma stop_then_start_leaves_one :
  exists s,
    run [ClickStart world_fixed; ClickStop; ClickStart world_fixed] app_fresh
      = Some s
    /\ elapsed_time s = 1%Z /\ elapsed_time s <> 0%Z.
Proof.
  eexists. split; [vm_compute; reflexivity|].
  split; [reflexivity | discriminate].
Qed.

(** C8, amended. [stop_recording] sets [recording] to false and
    [elapsed_time] to 0 in every state, and the clock stays at 0 for as long
    as the loop is idle, whatever callbacks come due and whatever else is
    clicked.  The next [start_recording] sets [recording], finds the clock
    at 0 and runs the first clock advance itself: a stop followed by a
    start leaves [elapsed_time] equal to 1. *)
Theorem stop_resets_start_advances (s s1 : App) (evs : list event)
    (w : World)
    (Hnostart : Forall not_start evs)
    (Hrun : run evs (exec stop_recording s) = Some s1) :
  stop_recording s = (Ok tt, stopped s)
  /\ recording (stopped s) = false /\ elapsed_time (stopped s) = 0%Z
  /\ recording s1 = false /\ elapsed_time s1 = 0%Z
  /\ dispatch (ClickStart w) s1 = Some (exec (start_recording w) s1)
  /\ start_recording w s1 = (update_timer ;; update_disk_usage w) (started s1)
  /\ recording (started s1) = true /\ elapsed_time (started s1) = 0%Z
  /\ elapsed_time (exec update_timer (started s1)) = 1%Z
  /\ elapsed_time (exec (start_recording w) s1) = 1%Z.
Proof.
  destruct (idle_at_zero_run evs _ s1 (stopped_idle_at_zero s) Hnostart Hrun)
    as (Hr & He & Hsb & Hst).
  split; [reflexivity|]. split; [reflexivity|]. split; [reflexivity|].
  split; [exact Hr|]. split; [exact He|].
  split; [cbn [dispatch]; now rewrite Hsb|].
  split; [reflexivity|]. split; [reflexivity|]. split; [exact He|].
  split.
  - unfold exec. rewrite update_timer_running by reflexivity.
    attrs. rewrite He. reflexivity.
  - rewrite start_recording_elapsed, He. reflexivity.
Qed.

Lemma stop_resets_start_advances_witness :
  exists s s1,
    run [ClickStart world_fixed; Timer 0 world_fixed; Timer 1 world_fixed]
        app_fresh = Some s
    /\ elapsed_time s = 3%Z
    /\ run [Timer 0 world_fixed; ClickHistory; ClickChangeTick [SubmitInt 20]]
           (exec stop_recording s) = Some s1
    /\ elapsed_time s1 = 0%Z
    /\ elapsed_time (exec (start_recording world_fixed) s1) = 1%Z.
Proof.
  destruct (run [ClickStart world_fixed; Timer 0 world_fixed;
                 Timer 1 world_fixed] app_fresh) as [s|] eqn:Hs;
    [|vm_compute in Hs; discriminate].
  destruct (run [Timer 0 world_fixed; ClickHistory;
                 ClickChangeTick [SubmitInt 20]] (exec stop_recording s))
    as [s1|] eqn:Hs1.
  - exists s, s1. split; [reflexivity|].
    split; [vm_compute in Hs; injection Hs as <-; reflexivity|].
    split; [exact Hs1|].
    assert (Hnostart : Forall not_start
              [Timer 0 world_fixed; ClickHistory;
               ClickChangeTick [SubmitInt 20]]).
    { repeat apply Forall_cons; try exact I. apply Forall_nil. }
    destruct (stop_resets_start_advances s s1 _ world_fixed Hnostart Hs1)
      as (_ & _ & _ & _ & He & _ & _ & _ & _ & _ & Hone).
    split; [exact He | exact Hone].
  - vm_compute in Hs. injection Hs as <-. vm_compute in Hs1. discriminate.
Defined.

(** ** Changing the tick interval *)

Lemma askinteger_accepts (pre post : list dialog_action) (ms : Z) :
  Forall rejected pre -> (1 <= ms <= 1000)%Z ->
  askinteger 1 1000 (pre ++ SubmitInt ms :: post) = Some ms.
Proof.
  intros Hpre Hms. induction Hpre as [|a pre Ha _ IH]; cbn [app askinteger].
  - destruct (Z.ltb_spec ms 1); [lia|].
    destruct (Z.ltb_spec 1000 ms); [lia|]. reflexivity.
  - destruct a as [z| |]; cbn [rejected] in Ha; [|exact IH|contradiction].
    destruct (Z.ltb_spec z 1); [exact IH|].
    destruct (Z.ltb_spec 1000 z); [exact IH|lia].
Qed.

(** The queue [start_recording] leaves when its first tick runs to its end:
    the clock advance, then the tick with the interval of that moment. *)
Lemma start_recording_pending (w : World) (s : App) (d : Db)
    (disk_info : Z * Z) :
  conn s = Some d -> has_room 1 d -> get_disk_usage w = Ok disk_info ->
  bindable (get_osu_usage w) disk_info ->
  pending (exec (start_recording w) s) =
  (pending s ++ [(1000%Z, CbUpdateTimer);
                 (tick_interval s, CbUpdateDiskUsage)])%list.
Proof.
  intros Hc Hroom Hd Hb.
  rewrite exec_start_recording.
  assert (Ht : exists lbl,
             exec update_timer (started s) =
             set_pending (pending s ++ [(1000%Z, CbUpdateTimer)])
               (set_timer_label lbl
                  (set_elapsed_time (elapsed_time s + 1) (started s)))).
  { eexists. unfold exec.
    rewrite update_timer_running by reflexivity. reflexivity. }
  destruct Ht as [lbl ->].
  unfold exec.
  rewrite (tick_completes w _ d disk_info);
    [|reflexivity|exact Hc|exact Hroom|exact Hd|exact Hb].
  unfold ticked. attrs. now rewrite <- app_assoc.
Qed.

(** C6. When the user enters a number between 1 and 1000 in the dialog,
    also after entries the dialog refused, [change_tick] makes it the tick
    interval and changes nothing else: the callbacks already pending keep
    their delay, and the next tick that is scheduled (by a first tick that
    runs to its end) uses the new one.
    When every entry is refused or the dialog is cancelled, [change_tick]
    returns normally and leaves the state as it was. *)
Theorem change_tick_applies_valid_only (s : App) (ms : Z)
    (Hvalid : (1 <= ms <= 1000)%Z) :
  (forall pre post,
      Forall rejected pre ->
      change_tick (pre ++ SubmitInt ms :: post) s
      = (Ok tt, set_tick_interval ms s))
  /\ pending (set_tick_interval ms s) = pending s
  /\ (forall w d disk_info,
        conn s = Some d -> has_room 1 d -> get_disk_usage w = Ok disk_info ->
        bindable (get_osu_usage w) disk_info ->
        pending (exec (start_recording w) (set_tick_interval ms s)) =
        (pending s ++ [(1000%Z, CbUpdateTimer);
                       (ms, CbUpdateDiskUsage)])%list)
  /\ (forall script,
        Forall refused script -> change_tick script s = (Ok tt, s)).
Proof.
  split; [|split; [reflexivity|split]].
  - intros pre post Hpre.
    apply change_tick_accepted; [now apply askinteger_accepts | lia].
  - intros w d disk_info Hc Hroom Hd Hb.
    now apply (start_recording_pending w (set_tick_interval ms s) d disk_info).
  - intros script Hscript.
    apply change_tick_cancelled, askinteger_refused.
    eapply Forall_impl; [|exact Hscript].
    intros [z| |]; cbn [refused]; auto.
Qed.

Lemma change_tick_applies_valid_only_witness :
  change_tick [SubmitInt 0; SubmitText; SubmitInt 1001; SubmitInt 500] app_fresh
  = (Ok tt, set_tick_interval 500 app_fresh)
  /\ change_tick [SubmitInt 0; SubmitInt 5000; SubmitText; Cancel] app_fresh
     = (Ok tt, app_fresh).
Proof.
  assert (Hvalid : (1 <= 500 <= 1000)%Z) by lia.
  destruct (change_tick_applies_valid_only app_fresh 500 Hvalid)
    as (Happlied & _ & _ & Hrefused).
  split.
  - apply (Happlied [SubmitInt 0; SubmitText; SubmitInt 1001] []).
    repeat apply Forall_cons; cbn [rejected]; try lia; try exact I.
    apply Forall_nil.
  - apply Hrefused.
    apply Forall_cons; [cbn [refused]; lia|].
    apply Forall_cons; [cbn [refused]; lia|].
    apply Forall_cons; [exact I|].
    apply Forall_cons; [exact I | apply Forall_nil].
Defined.

(** ** Appending to the table and reading it back *)


Lemma save_to_db_full (cpu_info : float) (osu_info disk_info : Z * Z)
    (s : App) (d : Db) :
  conn s = Some d -> (Sqlite.max_rowid <= Sqlite.last_rowid d)%Z ->
  bindable osu_info disk_info ->
  save_to_db cpu_info osu_info disk_info s = (Raise OperationalError, s).
Proof.
  intros Hc Hfull Hb. unfold save_to_db, bind, get, lift, modify.
  rewrite Hc, (bind_params_ok _ _ _ Hb). now rewrite SqliteFacts.insert_full.
Qed.



Lemma with_row_select_all (r : db_row) (d : Db) :
  Sqlite.select_all (with_row r d) = (Sqlite.select_all d ++ [r])%list.
Proof.
  unfold Sqlite.select_all, with_row. cbn [tbl_records].
  now rewrite map_app.
Qed.





Lemma insert_rows (rs : list db_row) :
  forall s t,
    history_tree s = Some t ->
    for_each rs
      (fun record => modify (fun s =>
         set_history_tree
           (option_map (Tree.insert_end record) (history_tree s)) s)) s
    = (Ok tt,
       set_history_tree
         (Some (fold_left (fun t r => Tree.insert_end r t) rs t)) s).
Proof.
  induction rs as [|r rs IH]; intros s t Ht.
  - cbn. destruct s; cbn in Ht; subst; reflexivity.
  - cbn [for_each]. unfold bind, modify at 1.
    rewrite (IH _ (Tree.insert_end r t)).
    + reflexivity.
    + cbn. now rewrite Ht.
Qed.

Lemma rows_after_inserts {V : Type} (rs : list V) :
  forall t : Treeview V,
    Tree.rows (fold_left (fun t r => Tree.insert_end r t) rs t) =
    (Tree.rows t ++ rs)%list.
Proof.
  induction rs as [|r rs IH]; intros t; cbn [fold_left].
  - now rewrite app_nil_r.
  - rewrite IH. unfold Tree.rows, Tree.insert_end. cbn [tv_items].
    now rewrite map_app, <- app_assoc.
Qed.






(** When the largest rowid has been handed out the insert raises and the
    table stays as it is. *)
Lemma append_to_full_table (s : App) (d : Db) (x : sample) :
  conn s = Some d -> (Sqlite.max_rowid <= Sqlite.last_rowid d)%Z ->
  sample_bindable x ->
  save_sample x s = (Raise OperationalError, s).
Proof.
  destruct x as [[c o] k]. intros Hc Hfull Hb.
  now apply (save_to_db_full c o k s d).
Qed.

(** ** One tick, end to end *)

(** C1, as the specification words it, fails: the first cell of each row the
    tick draws is the label of the source, 'ЦПУ', 'ОЗУ', 'ПЗУ', not "CPU",
    "MEM", "DISK". *)
Lemma tick_rows_not_as_worded :
  get_cpu_usage world_fixed = 10.5%float
  /\ get_osu_usage world_fixed = (1024, 2048)%Z
  /\ get_disk_usage world_fixed = Ok (512, 1024)%Z
  /\ recording app_recording = true
  /\ Tree.rows (table_tree (exec (update_disk_usage world_fixed) app_recording))
     <> spec_rows_fixed.
Proof.
  repeat split. vm_compute. discriminate.
Qed.

(** C1, amended. For any reading with cpu=10.5, mem=(1024,2048) and
    disk=(512,1024), one tick while recording, on a table with room, leaves
    exactly three rows in the live table, ('ЦПУ',10.5,'-'),
    ('ОЗУ',1024,2048), ('ПЗУ',512,1024), appends exactly one row with those
    five values (as the REAL numbers 10.5, 1024.0, 2048.0, 512.0, 1024.0)
    to the table [records], and schedules the next tick. *)
Theorem tick_renders_and_stores (w : World) (s : App) (d : Db)
    (Hrunning : recording s = true)
    (Hconn : conn s = Some d) (Hroom : has_room 1 d)
    (Hcpu : get_cpu_usage w = 10.5%float)
    (Hmem : get_osu_usage w = (1024, 2048)%Z)
    (Hdisk : get_disk_usage w = Ok (512, 1024)%Z) :
  exists s' d',
    update_disk_usage w s = (Ok tt, s')
    /\ Tree.rows (table_tree s') =
       [ (PyStr "ЦПУ", PyFloat 10.5%float, PyStr "-");
         (PyStr "ОЗУ", PyInt 1024, PyInt 2048);
         (PyStr "ПЗУ", PyInt 512, PyInt 1024) ]
    /\ conn s' = Some d'
    /\ tbl_records d' =
       (tbl_records d
        ++ [((Sqlite.last_rowid d + 1)%Z,
             {| cpu := SqlReal 10.5%float;
                osu_free := SqlReal 1024%float;
                osu_total := SqlReal 2048%float;
                disk_free := SqlReal 512%float;
                disk_total := SqlReal 1024%float |})])%list
    /\ Sqlite.select_all d' =
       (Sqlite.select_all d
        ++ [{| cpu := SqlReal 10.5%float;
               osu_free := SqlReal 1024%float;
               osu_total := SqlReal 2048%float;
               disk_free := SqlReal 512%float;
               disk_total := SqlReal 1024%float |}])%list
    /\ pending s' =
       (pending s ++ [(tick_interval s, CbUpdateDiskUsage)])%list.
Proof.
  assert (Hb : bindable (get_osu_usage w) (512, 1024)%Z).
  { rewrite Hmem. repeat split; reflexivity. }
  exists (ticked w (512, 1024)%Z d s).
  exists (with_row (row_of (get_cpu_usage w) (get_osu_usage w) (512, 1024)%Z) d).
  split; [now apply tick_completes|].
  unfold ticked. attrs. rewrite redrawn_rows, with_row_select_all.
  rewrite Hcpu, Hmem. repeat split.
Qed.

Lemma tick_renders_and_stores_witness :
  exists s',
    update_disk_usage world_fixed app_recording = (Ok tt, s')
    /\ List.length (Tree.rows (table_tree s')) = 3%nat
    /\ option_map Sqlite.select_all (conn s') =
       Some [{| cpu := SqlReal 10.5%float;
                osu_free := SqlReal 1024%float;
                osu_total := SqlReal 2048%float;
                disk_free := SqlReal 512%float;
                disk_total := SqlReal 1024%float |}].
Proof.
  destruct (tick_renders_and_stores world_fixed app_recording
              Sqlite.empty_table eq_refl eq_refl has_room_empty
              eq_refl eq_refl eq_refl)
    as (s' & d' & Htick & Hrows & Hc & _ & Hsel & _).
  exists s'. split; [exact Htick|]. split.
  - now rewrite Hrows.
  - rewrite Hc. cbn [option_map]. now rewrite Hsel.
Defined.

(** ** Starting *)

(** A tick, however it ends, leaves the clock label alone and only adds to
    the queue. *)
Lemma update_disk_usage_keeps_clock (w : World) (s : App) :
  timer_label (exec (update_disk_usage w) s) = timer_label s
  /\ exists more,
       pending (exec (update_disk_usage w) s) = (pending s ++ more)%list.
Proof.
  unfold exec. destruct (recording s) eqn:Hr.
  - rewrite update_disk_usage_running by exact Hr.
    destruct (get_disk_usage w) as [disk_info|e]; cbv zeta;
      [|split; [reflexivity | exists []; now rewrite app_nil_r]].
    destruct (conn s) as [d|];
      [|split; [reflexivity | exists []; now rewrite app_nil_r]].
    destruct (Sqlite.bind_params _ _ _) as [row|e];
      [|split; [reflexivity | exists []; now rewrite app_nil_r]].
    destruct (Sqlite.insert row d) as [d'|e];
      [|split; [reflexivity | exists []; now rewrite app_nil_r]].
    split; [reflexivity | eexists; reflexivity].
  - rewrite update_disk_usage_idle by exact Hr.
    split; [reflexivity | exists []; now rewrite app_nil_r].
Qed.

(** C3, as the specification words it, fails: when [start_recording]
    returns on the application right after [__init__], the clock is at 1,
    not at 0; and called on a state whose clock is at 5 it leaves 6, so it
    is not [start_recording] that puts the clock to 0. *)
Lemma start_leaves_clock_at_one :
  start_button app_fresh = true
  /\ ~ (exists s',
          dispatch (ClickStart world_fixed) app_fresh = Some s'
          /\ recording s' = true /\ elapsed_time s' = 0%Z)
  /\ elapsed_time
       (exec (start_recording world_fixed) (set_elapsed_time 5 app_fresh))
     = 6%Z.
Proof.
  split; [reflexivity|]. split; [|reflexivity].
  intros (s' & Hstep & _ & Hzero).
  vm_compute in Hstep. injection Hstep as <-. discriminate Hzero.
Qed.

(** C3, amended. In every state in which 'Начать запись' can be clicked the
    loop is idle and the clock is at 0 already, because [__init__] and
    [stop_recording] put it there.  [start_recording] sets [recording] and
    does not write [elapsed_time]; it then runs the first clock advance and
    the first tick itself, so when it returns the loop is recording, the
    clock is at 1 and reads 00:01, and the next advance is queued for
    1000 ms later.  From any state at all it adds one to the clock. *)
Theorem start_recording_first_advance (s : App) (w : World)
    (Hreach : reachable s) (Hshown : start_button s = true) :
  recording s = false /\ elapsed_time s = 0%Z
  /\ dispatch (ClickStart w) s = Some (exec (start_recording w) s)
  /\ start_recording w s = (update_timer ;; update_disk_usage w) (started s)
  /\ elapsed_time (started s) = elapsed_time s
  /\ recording (exec (start_recording w) s) = true
  /\ elapsed_time (exec (start_recording w) s) = 1%Z
  /\ timer_label (exec (start_recording w) s) = "00:01"
  /\ (exists more,
        pending (exec (start_recording w) s) =
        (pending s ++ (1000%Z, CbUpdateTimer) :: more)%list)
  /\ (forall s0,
        elapsed_time (exec (start_recording w) s0) = (elapsed_time s0 + 1)%Z).
Proof.
  destruct (reachable_invariant s Hreach) as (_ & (Hsb & _) & Hzero).
  assert (Hidle : recording s = false).
  { rewrite Hshown in Hsb. now destruct (recording s). }
  specialize (Hzero Hidle).
  split; [exact Hidle|]. split; [exact Hzero|].
  split; [cbn [dispatch]; now rewrite Hshown|].
  split; [reflexivity|]. split; [reflexivity|].
  split; [apply start_recording_recording|].
  split; [rewrite start_recording_elapsed, Hzero; reflexivity|].
  destruct (update_disk_usage_keeps_clock w (exec update_timer (started s)))
    as (Hlabel & more & Hpending).
  split; [|split].
  - rewrite exec_start_recording, Hlabel.
    unfold exec. rewrite update_timer_running by reflexivity.
    attrs. rewrite Hzero. reflexivity.
  - exists more. rewrite exec_start_recording, Hpending.
    unfold exec at 1. rewrite update_timer_running by reflexivity.
    attrs. now rewrite <- app_assoc.
  - intros s0. apply start_recording_elapsed.
Qed.

Lemma start_recording_first_advance_witness :
  exists s,
    run session_stopped app_fresh = Some s
    /\ elapsed_time s = 0%Z
    /\ elapsed_time (exec (start_recording world_fixed) s) = 1%Z
    /\ timer_label (exec (start_recording world_fixed) s) = "00:01".
Proof.
  destruct (run session_stopped app_fresh) as [s|] eqn:Hrun;
    [|vm_compute in Hrun; discriminate].
  assert (Hreach : reachable s).
  { apply (run_reachable session_stopped app_fresh s);
      [apply (reachable_init None) | exact Hrun]. }
  assert (Hshown : start_button s = true).
  { vm_compute in Hrun. injection Hrun as <-. reflexivity. }
  destruct (start_recording_first_advance s world_fixed Hreach Hshown)
    as (_ & Hzero & _ & _ & _ & _ & Hone & Hlabel & _).
  exists s. repeat split; assumption.
Defined.

(** * Further properties *)

(** ** How a tick can end *)

Lemma tick_cases (w : World) (s : App) :
  tick_outcome w s (fst (update_disk_usage w s)) (snd (update_disk_usage w s)).
Proof.
  destruct (recording s) eqn:Hr.
  - rewrite update_disk_usage_running by exact Hr.
    destruct (get_disk_usage w) as [disk_info|e] eqn:Hd;
      [|now apply tick_disk_failed].
    cbv zeta. destruct (conn s) as [d|] eqn:Hc.
    + destruct (bind_params_cases (get_cpu_usage w) (get_osu_usage w)
                  disk_info) as [(Hb & ->)|(Hb & ->)].
      * destruct (Z.le_gt_cases Sqlite.max_rowid (Sqlite.last_rowid d))
          as [Hfull|Hroom].
        -- rewrite SqliteFacts.insert_full by exact Hfull.
           apply tick_store_failed; [exact Hr|exact Hd|].
           right. exists d. split; [exact Hc|split; assumption].
        -- rewrite SqliteFacts.insert_ok by lia.
           apply (tick_done w s disk_info d Hr Hd Hc); [|exact Hb].
           unfold has_room. lia.
      * now apply (tick_bind_failed w s disk_info d).
    + apply tick_store_failed; [exact Hr|exact Hd|now left].
  - rewrite update_disk_usage_idle by exact Hr. now apply tick_skipped.
Qed.

Lemma show_history_eq (s : App) (d : Db) :
  conn s = Some d -> show_history s = (Ok tt, history_shown d s).
Proof.
  intros Hc. unfold show_history. unfold bind at 1, get at 1. rewrite Hc.
  unfold bind at 1, modify at 1. unfold bind at 1, modify at 1.
  unfold bind at 1, get at 1. attrs.
  rewrite (insert_rows _ _ Tree.create) by reflexivity.
  reflexivity.
Qed.

Lemma show_history_no_table (s : App) :
  conn s = None -> show_history s = (Raise OperationalError, s).
Proof.
  intros Hc. unfold show_history, bind, get, lift. now rewrite Hc.
Qed.

Lemma exec_update_timer_running (s : App) :
  recording s = true ->
  exec update_timer s =
  set_pending (pending s ++ [(1000%Z, CbUpdateTimer)])
    (set_timer_label
       (PyFormat.format_02 ((elapsed_time s + 1) / 60) ++ ":" ++
        PyFormat.format_02 ((elapsed_time s + 1) mod 60))
       (set_elapsed_time (elapsed_time s + 1) s)).
Proof.
  intros Hr. unfold exec. now rewrite update_timer_running.
Qed.

Lemma format_clock (e : Z) :
  (0 <= e)%Z ->
  PyFormat.format_02 (e / 60) ++ ":" ++ PyFormat.format_02 (e mod 60)
  = clock_text e.
Proof.
  intros He. unfold clock_text.
  rewrite !PyFormatFacts.format_02_nonneg; [reflexivity| |].
  - apply Z.mod_pos_bound. lia.
  - apply Z.div_pos; lia.
Qed.

(** ** The queue, the clock and the live table in every state *)

Lemma Forall_remove_nth {A : Type} (P : A -> Prop) (l : list A) :
  forall k, Forall P l -> Forall P (remove_nth k l).
Proof.
  induction l as [|x l IH]; intros [|k] H; cbn [remove_nth]; auto;
    inversion H; subst; auto.
Qed.

Lemma In_remove_nth_other {A : Type} (l : list A) :
  forall k x y,
    In x l -> nth_error l k = Some y -> x <> y -> In x (remove_nth k l).
Proof.
  induction l as [|z l IH]; intros [|k] x y Hin Hk Hne;
    cbn [remove_nth nth_error] in *; try contradiction.
  - injection Hk as ->. destruct Hin as [->|Hin]; [contradiction|exact Hin].
  - destruct Hin as [->|Hin]; [now left|right; now apply (IH k x y)].
Qed.

Lemma tick_effect (w : World) (s : App) :
  (pending (exec (update_disk_usage w) s) = pending s
   \/ (recording s = true
       /\ pending (exec (update_disk_usage w) s) =
          (pending s ++ [(tick_interval s, CbUpdateDiskUsage)])%list))
  /\ timer_label (exec (update_disk_usage w) s) = timer_label s
  /\ (table_shape s -> table_shape (exec (update_disk_usage w) s))
  /\ (conn (exec (update_disk_usage w) s) = conn s
      \/ exists d r, conn s = Some d /\ has_room 1 d
                     /\ conn (exec (update_disk_usage w) s)
                        = Some (with_row r d))
  /\ records (exec (update_disk_usage w) s) = records s
  /\ history_tree (exec (update_disk_usage w) s) = history_tree s.
Proof.
  pose proof (tick_cases w s) as H. unfold exec.
  destruct (update_disk_usage w s) as [o s']. cbn [fst snd] in *.
  inversion H as [Hr|e Hr Hd|disk_info d Hr Hd Hc Hb|disk_info Hr Hd Hc
                  |disk_info d Hr Hd Hc Hroom Hb];
    subst; unfold table_shape, ticked; attrs.
  - repeat split; auto.
  - repeat split; auto.
  - repeat split; auto. intros _. right.
    eexists _, _, _. apply redrawn_rows.
  - repeat split; auto. intros _. right.
    eexists _, _, _. apply redrawn_rows.
  - split; [right; now split|]. split; [reflexivity|].
    split; [intros _; right; eexists _, _, _; apply redrawn_rows|].
    split; [|now split].
    right. eexists d, _. repeat split; assumption.
Qed.

Lemma tick_keeps_loop_invariant (w : World) (s : App) :
  interval_in_range s -> loop_invariant s ->
  loop_invariant (exec (update_disk_usage w) s).
Proof.
  intros Hi (Hq & Hclock & Hlabel & Htable & d & Hc).
  destruct (tick_effect w s) as (Hp & Hl & Ht & Hconn & _).
  destruct (update_disk_usage_same_control w s)
    as (_ & He & Hr & _).
  unfold loop_invariant. rewrite Hr, He, Hl.
  assert (Hsub : forall entry,
             In entry (pending s) ->
             In entry (pending (exec (update_disk_usage w) s))).
  { intros entry Hin. destruct Hp as [->|[_ ->]]; [exact Hin|].
    apply in_or_app. now left. }
  split; [|split; [|split; [exact Hlabel|split; [now apply Ht|]]]].
  - destruct Hp as [->|[_ ->]]; [exact Hq|].
    apply Forall_app. split; [exact Hq|].
    apply Forall_cons; [exact Hi | apply Forall_nil].
  - intros Hrec. apply Hsub, Hclock, Hrec.
  - destruct Hconn as [->|(d0 & r & _ & _ & ->)]; eauto.
Qed.

Lemma started_clock_advanced (s : App) :
  invariant s -> loop_invariant s -> start_button s = true ->
  loop_invariant (exec update_timer (started s)).
Proof.
  intros (_ & (Hsb & _) & Hzero) (Hq & _ & _ & Htable & Hc) Hshown.
  assert (Hidle : recording s = false).
  { rewrite Hshown in Hsb. now destruct (recording s). }
  rewrite exec_update_timer_running by reflexivity.
  unfold loop_invariant, table_shape in *. attrs.
  rewrite (Hzero Hidle).
  split; [|split; [|split; [|split; assumption]]].
  - apply Forall_app. split; [exact Hq|].
    apply Forall_cons; [reflexivity | apply Forall_nil].
  - intros _. apply in_or_app. right. now left.
  - intros _. split; [lia|]. apply format_clock. lia.
Qed.

Lemma timer_event_loop_invariant (k : nat) (w : World) (s : App) (ms : Z)
    (cb : callback) :
  invariant s -> loop_invariant s ->
  nth_error (pending s) k = Some (ms, cb) ->
  loop_invariant
    (exec (run_callback cb w) (set_pending (remove_nth k (pending s)) s)).
Proof.
  intros (Hi & _ & _) (Hq & Hclock & Hlabel & Htable & Hc) Hk.
  destruct cb; cbn [run_callback].
  - destruct (recording s) eqn:Hr.
    + rewrite exec_update_timer_running by exact Hr.
      destruct (Hlabel eq_refl) as (He & _).
      unfold loop_invariant, table_shape in *. attrs.
      split; [|split; [|split; [|split; assumption]]].
      * apply Forall_app. split; [now apply Forall_remove_nth|].
        apply Forall_cons; [reflexivity | apply Forall_nil].
      * intros _. apply in_or_app. right. now left.
      * intros _. split; [lia|]. apply format_clock. lia.
    + unfold exec. rewrite update_timer_idle by exact Hr.
      unfold loop_invariant, table_shape in *. attrs.
      split; [now apply Forall_remove_nth|].
      split; [intros Hrec; congruence|].
      split; [intros Hrec; congruence|]. now split.
  - apply tick_keeps_loop_invariant; [exact Hi|].
    unfold loop_invariant, table_shape in *. attrs.
    split; [now apply Forall_remove_nth|].
    split; [|split; [exact Hlabel|now split]].
    intros Hrec.
    apply (In_remove_nth_other _ k _ (ms, CbUpdateDiskUsage));
      [now apply Hclock | exact Hk | discriminate].
Qed.

Lemma init_loop_invariant (file : option Db) : loop_invariant (init file).
Proof.
  unfold loop_invariant, table_shape.
  destruct file as [d|]; vm_compute;
    (split; [apply Forall_nil|]);
    (split; [discriminate|]); (split; [discriminate|]);
    (split; [now left|]); eexists; reflexivity.
Qed.

Lemma dispatch_loop_invariant (ev : event) (s s' : App) :
  invariant s -> loop_invariant s -> dispatch ev s = Some s' ->
  loop_invariant s'.
Proof.
  intros Hinv Hloop. destruct ev as [w| | |script|k w]; cbn [dispatch].
  - destruct (start_button s) eqn:Hshown; [|discriminate]. intros [= <-].
    rewrite exec_start_recording.
    apply tick_keeps_loop_invariant.
    + apply (update_timer_invariant (started s)).
      now apply started_invariant.
    + now apply started_clock_advanced.
  - destruct (stop_button s); [|discriminate]. intros [= <-].
    unfold exec. rewrite stop_recording_eq.
    destruct Hloop as (Hq & _ & _ & Htable & Hc).
    unfold loop_invariant, table_shape in *. attrs.
    split; [exact Hq|]. split; [discriminate|]. split; [discriminate|].
    now split.
  - destruct (history_button s); [|discriminate]. intros [= <-].
    destruct Hloop as (Hq & Hclock & Hlabel & Htable & d & Hc).
    unfold exec. rewrite (show_history_eq s d Hc).
    unfold loop_invariant, table_shape, history_shown in *. attrs.
    repeat split; try assumption; try (now apply Hlabel). now exists d.
  - destruct (change_tick_button s); [|discriminate]. intros [= <-].
    unfold exec, change_tick.
    destruct (askinteger 1 1000 script) as [n|]; [|exact Hloop].
    destruct (n =? 0)%Z; [exact Hloop|].
    destruct Hloop as (Hq & Hclock & Hlabel & Htable & Hc).
    unfold loop_invariant, table_shape, modify in *. attrs.
    repeat split; try assumption; now apply Hlabel.
  - destruct (nth_error (pending s) k) as [[ms cb]|] eqn:Hk; [|discriminate].
    intros [= <-]. now apply (timer_event_loop_invariant k w s ms cb).
Qed.

Lemma reachable_loop_invariant (s : App) : reachable s -> loop_invariant s.
Proof.
  induction 1 as [file|s s' ev Hs IH Hstep].
  - apply init_loop_invariant.
  - apply (dispatch_loop_invariant ev s s');
      [now apply reachable_invariant | exact IH | exact Hstep].
Qed.

Lemma reachable_from_fresh (evs : list event) (s : App) :
  run evs app_fresh = Some s -> reachable s.
Proof.
  intros Hrun.
  apply (run_reachable evs app_fresh s); [apply (reachable_init None)|exact Hrun].
Qed.

(** X1. In every state of the main loop the widgets shown are those of the
    mode: while recording only 'Остановить' can be clicked, so no recording
    can be started twice, no history opened and no interval changed; while
    idle 'Остановить' cannot be clicked and 'Начать запись' can. *)
Theorem mode_decides_events (s : App) (Hreach : reachable s) :
  ui_matches_mode s
  /\ (recording s = true ->
      (forall w, dispatch (ClickStart w) s = None)
      /\ dispatch ClickHistory s = None
      /\ (forall script, dispatch (ClickChangeTick script) s = None)
      /\ dispatch ClickStop s = Some (stopped s))
  /\ (recording s = false ->
      dispatch ClickStop s = None
      /\ (forall w,
            dispatch (ClickStart w) s = Some (exec (start_recording w) s))
      /\ (forall script,
            dispatch (ClickChangeTick script) s
            = Some (exec (change_tick script) s))).
Proof.
  destruct (reachable_invariant s Hreach)
    as (_ & (Hsb & Hhb & Hcb & Hst & Htl) & _).
  split; [repeat split; assumption|].
  split; intros Hr; rewrite Hr in *; cbn [negb] in *; cbn [dispatch];
    rewrite ?Hsb, ?Hhb, ?Hcb, ?Hst; repeat split.
Qed.

Lemma mode_decides_events_witness :
  exists s,
    run session_retimed app_fresh = Some s
    /\ recording s = true
    /\ dispatch (ClickChangeTick [SubmitInt 10]) s = None.
Proof.
  destruct (run session_retimed app_fresh) as [s|] eqn:Hrun;
    [|vm_compute in Hrun; discriminate].
  assert (Hr : recording s = true).
  { vm_compute in Hrun. injection Hrun as <-. reflexivity. }
  exists s. split; [reflexivity|]. split; [exact Hr|].
  destruct (mode_decides_events s (reachable_from_fresh _ s Hrun))
    as (_ & Hrecording & _).
  apply (Hrecording Hr).
Defined.

(** X2. While recording, in every state of the main loop, the clock has
    advanced at least once and the label reads the elapsed time: the text
    is always that of [elapsed_time]. *)
Theorem clock_label_tracks_elapsed (s : App) (Hreach : reachable s)
    (Hrec : recording s = true) :
  (1 <= elapsed_time s)%Z /\ timer_label s = clock_text (elapsed_time s).
Proof.
  destruct (reachable_loop_invariant s Hreach) as (_ & _ & Hlabel & _).
  now apply Hlabel.
Qed.

Lemma clock_label_tracks_elapsed_witness :
  exists s,
    run [ClickStart world_fixed; Timer 0 world_fixed; Timer 1 world_fixed]
        app_fresh = Some s
    /\ timer_label s = clock_text (elapsed_time s).
Proof.
  destruct (run [ClickStart world_fixed; Timer 0 world_fixed;
                 Timer 1 world_fixed] app_fresh) as [s|] eqn:Hrun;
    [|vm_compute in Hrun; discriminate].
  assert (Hr : recording s = true).
  { vm_compute in Hrun. injection Hrun as <-. reflexivity. }
  exists s. split; [reflexivity|].
  apply (clock_label_tracks_elapsed s (reachable_from_fresh _ s Hrun) Hr).
Defined.

(** X3. Every callback that is pending waits between 1 and 1000 ms, a clock
    advance exactly 1000 ms; and while recording a clock advance is always
    pending, so the clock never stops on its own. *)
Theorem pending_delays_in_range (s : App) (Hreach : reachable s) :
  Forall delay_ok (pending s)
  /\ (recording s = true -> In (1000%Z, CbUpdateTimer) (pending s)).
Proof.
  destruct (reachable_loop_invariant s Hreach) as (Hq & Hclock & _).
  now split.
Qed.

Lemma pending_delays_in_range_witness :
  exists s,
    run session_retimed app_fresh = Some s
    /\ Forall delay_ok (pending s)
    /\ In (1000%Z, CbUpdateTimer) (pending s).
Proof.
  destruct (run session_retimed app_fresh) as [s|] eqn:Hrun;
    [|vm_compute in Hrun; discriminate].
  assert (Hr : recording s = true).
  { vm_compute in Hrun. injection Hrun as <-. reflexivity. }
  exists s. split; [reflexivity|].
  destruct (pending_delays_in_range s (reachable_from_fresh _ s Hrun))
    as (Hq & Hclock).
  split; [exact Hq | exact (Hclock Hr)].
Defined.

(** X4. In every state of the main loop the live table is empty or holds
    the three rows of one reading: it never grows beyond three rows. *)
Theorem live_table_empty_or_three (s : App) (Hreach : reachable s) :
  table_shape s /\ (List.length (Tree.rows (table_tree s)) <= 3)%nat.
Proof.
  destruct (reachable_loop_invariant s Hreach) as (_ & _ & _ & Htable & _).
  split; [exact Htable|].
  destruct Htable as [->|(c & o & k & ->)]; cbn; lia.
Qed.

Lemma live_table_empty_or_three_witness :
  exists s,
    run session_stopped app_fresh = Some s
    /\ (List.length (Tree.rows (table_tree s)) <= 3)%nat.
Proof.
  destruct (run session_stopped app_fresh) as [s|] eqn:Hrun;
    [|vm_compute in Hrun; discriminate].
  exists s. split; [reflexivity|].
  apply (live_table_empty_or_three s (reachable_from_fresh _ s Hrun)).
Defined.

(** X5. In every state of the main loop the table [records] exists, so
    [show_history] returns normally; it reads all stored rows in the order
    of the scan into [records], shows the same rows in the history window,
    and changes neither the loop state, nor the queue, nor the live table,
    nor the database. *)
Theorem show_history_shows_stored (s : App) (Hreach : reachable s) :
  exists d s',
    conn s = Some d
    /\ show_history s = (Ok tt, s')
    /\ records s' = Sqlite.select_all d
    /\ option_map Tree.rows (history_tree s') = Some (Sqlite.select_all d)
    /\ same_control s s'
    /\ pending s' = pending s /\ conn s' = conn s
    /\ table_tree s' = table_tree s /\ timer_label s' = timer_label s.
Proof.
  destruct (reachable_loop_invariant s Hreach) as (_ & _ & _ & _ & d & Hc).
  exists d, (history_shown d s).
  split; [exact Hc|]. split; [now apply show_history_eq|].
  unfold history_shown, same_control. attrs.
  split; [reflexivity|]. split; [|repeat split].
  cbn [option_map]. now rewrite rows_after_inserts.
Qed.

Lemma show_history_shows_stored_witness :
  exists s s',
    run session_stopped app_fresh = Some s
    /\ show_history s = (Ok tt, s')
    /\ List.length (records s') = 2%nat.
Proof.
  destruct (run session_stopped app_fresh) as [s|] eqn:Hrun;
    [|vm_compute in Hrun; discriminate].
  destruct (show_history_shows_stored s (reachable_from_fresh _ s Hrun))
    as (d & s' & Hc & Hshow & Hrec & _).
  exists s, s'. split; [reflexivity|]. split; [exact Hshow|].
  rewrite Hrec. vm_compute in Hrun. injection Hrun as <-.
  vm_compute in Hc. injection Hc as <-. reflexivity.
Defined.

(** ** Callbacks that outlive a stop *)

Lemma count_cb_app (cb : callback) (q1 q2 : list (Z * callback)) :
  count_cb cb (q1 ++ q2) = (count_cb cb q1 + count_cb cb q2)%nat.
Proof. unfold count_cb. now rewrite filter_app, length_app. Qed.

Lemma count_cb_remove_nth (cb : callback) (q : list (Z * callback)) :
  forall k ms,
    nth_error q k = Some (ms, cb) ->
    S (count_cb cb (remove_nth k q)) = count_cb cb q.
Proof.
  unfold count_cb.
  induction q as [|[ms' cb'] q IH]; intros [|k] ms Hk;
    cbn [nth_error remove_nth filter] in *; try discriminate.
  - injection Hk as -> ->. cbn [snd]. now destruct cb.
  - cbn [snd]. destruct (callback_eqb cb' cb); cbn [List.length];
      now rewrite (IH k ms Hk).
Qed.

Lemma update_timer_keeps_conn (s : App) :
  conn (exec update_timer s) = conn s.
Proof.
  unfold exec. destruct (recording s) eqn:Hr.
  - now rewrite update_timer_running.
  - now rewrite update_timer_idle.
Qed.

(** The queue [start_recording] leaves: the queue it found, the clock
    advance, and the next tick when the first one ran to its end. *)
Lemma start_recording_queue (w : World) (s : App) :
  exists more,
    pending (exec (start_recording w) s) =
    (pending s ++ (1000%Z, CbUpdateTimer) :: more)%list
    /\ (more = [] \/ more = [(tick_interval s, CbUpdateDiskUsage)]).
Proof.
  rewrite exec_start_recording.
  destruct (tick_effect w (exec update_timer (started s))) as (Hp & _).
  rewrite (exec_update_timer_running (started s) eq_refl) in *.
  attrs.
  destruct Hp as [Hp|[_ Hp]]; rewrite Hp.
  - exists []. split; [reflexivity | now left].
  - exists [(tick_interval s, CbUpdateDiskUsage)].
    split; [now rewrite <- app_assoc | now right].
Qed.

(** X6. [stop_recording] cancels nothing: when 'Остановить' and then
    'Начать запись' are clicked, every callback that was pending is still
    pending and [start_recording] adds a clock advance of its own, so one
    more clock advance is pending than before; the clock restarts at 1. *)
Theorem restart_adds_clock_callback (s : App) (w : World)
    (Hshown : stop_button s = true) :
  exists s' more,
    run [ClickStop; ClickStart w] s = Some s'
    /\ recording s' = true /\ elapsed_time s' = 1%Z
    /\ pending s' = (pending s ++ (1000%Z, CbUpdateTimer) :: more)%list
    /\ (more = [] \/ more = [(tick_interval s, CbUpdateDiskUsage)])
    /\ count_cb CbUpdateTimer (pending s')
       = S (count_cb CbUpdateTimer (pending s)).
Proof.
  destruct (start_recording_queue w (stopped s)) as (more & Hp & Hmore).
  exists (exec (start_recording w) (stopped s)), more.
  split; [cbn [run dispatch]; now rewrite Hshown|].
  split; [apply start_recording_recording|].
  split; [now rewrite start_recording_elapsed|].
  split; [exact Hp|]. split; [exact Hmore|].
  rewrite Hp. change (pending (stopped s)) with (pending s).
  rewrite count_cb_app.
  destruct Hmore as [->| ->]; cbn; lia.
Qed.

Lemma restart_adds_clock_callback_witness :
  exists s s',
    run [ClickStart world_fixed] app_fresh = Some s
    /\ run [ClickStop; ClickStart world_fixed] s = Some s'
    /\ count_cb CbUpdateTimer (pending s) = 1%nat
    /\ count_cb CbUpdateTimer (pending s') = 2%nat.
Proof.
  destruct (run [ClickStart world_fixed] app_fresh) as [s|] eqn:Hrun;
    [|vm_compute in Hrun; discriminate].
  assert (Hshown : stop_button s = true).
  { vm_compute in Hrun. injection Hrun as <-. reflexivity. }
  assert (Hone : count_cb CbUpdateTimer (pending s) = 1%nat).
  { vm_compute in Hrun. injection Hrun as <-. reflexivity. }
  destruct (restart_adds_clock_callback s world_fixed Hshown)
    as (s' & more & Hrestart & _ & _ & _ & _ & Hcount).
  exists s, s'. split; [reflexivity|]. split; [exact Hrestart|].
  split; [exact Hone|]. now rewrite Hcount, Hone.
Defined.

(** X7. While recording, a clock advance that comes due adds one second,
    refreshes the label and queues its successor: the number of pending
    clock advances stays the same, so each of them, also one left over from
    before a stop, keeps advancing the clock once per round. *)
Theorem clock_callback_keeps_its_chain (s : App) (k : nat) (w : World)
    (ms : Z)
    (Hrec : recording s = true)
    (Hnonneg : (0 <= elapsed_time s)%Z)
    (Hdue : nth_error (pending s) k = Some (ms, CbUpdateTimer)) :
  exists s',
    dispatch (Timer k w) s = Some s'
    /\ recording s' = true
    /\ elapsed_time s' = (elapsed_time s + 1)%Z
    /\ timer_label s' = clock_text (elapsed_time s + 1)
    /\ pending s' =
       (remove_nth k (pending s) ++ [(1000%Z, CbUpdateTimer)])%list
    /\ count_cb CbUpdateTimer (pending s')
       = count_cb CbUpdateTimer (pending s)
    /\ conn s' = conn s /\ table_tree s' = table_tree s.
Proof.
  eexists. split.
  - cbn [dispatch]. rewrite Hdue. cbn [run_callback]. reflexivity.
  - rewrite exec_update_timer_running by exact Hrec. attrs.
    split; [exact Hrec|]. split; [reflexivity|].
    split; [apply format_clock; lia|]. split; [reflexivity|].
    split; [|now split].
    rewrite count_cb_app, <- (count_cb_remove_nth _ _ k ms Hdue).
    cbn. lia.
Qed.

Lemma clock_callback_keeps_its_chain_witness :
  exists s s1 s2,
    run [ClickStart world_fixed; ClickStop; ClickStart world_fixed] app_fresh
      = Some s
    /\ elapsed_time s = 1%Z
    /\ dispatch (Timer 0 world_fixed) s = Some s1
    /\ dispatch (Timer 1 world_fixed) s1 = Some s2
    /\ elapsed_time s2 = 3%Z.
Proof.
  destruct (run [ClickStart world_fixed; ClickStop; ClickStart world_fixed]
              app_fresh) as [s|] eqn:Hrun;
    [|vm_compute in Hrun; discriminate].
  assert (Hfacts :
            recording s = true /\ elapsed_time s = 1%Z
            /\ nth_error (pending s) 0 = Some (1000%Z, CbUpdateTimer)
            /\ nth_error (remove_nth 0 (pending s)
                          ++ [(1000%Z, CbUpdateTimer)]) 1
               = Some (1000%Z, CbUpdateTimer)).
  { vm_compute in Hrun. injection Hrun as <-. repeat split. }
  destruct Hfacts as (Hr & He & Hdue & Hdue').
  assert (Hnonneg : (0 <= elapsed_time s)%Z) by (rewrite He; lia).
  destruct (clock_callback_keeps_its_chain s 0 world_fixed 1000
              Hr Hnonneg Hdue)
    as (s1 & Hs1 & Hr1 & He1 & _ & Hp1 & _).
  assert (Hnonneg1 : (0 <= elapsed_time s1)%Z) by (rewrite He1; lia).
  rewrite <- Hp1 in Hdue'.
  destruct (clock_callback_keeps_its_chain s1 1 world_fixed 1000
              Hr1 Hnonneg1 Hdue')
    as (s2 & Hs2 & _ & He2 & _).
  exists s, s1, s2. split; [reflexivity|]. split; [exact He|].
  split; [exact Hs1|]. split; [exact Hs2|].
  rewrite He2, He1, He. reflexivity.
Defined.

(** ** Ticks that fail *)

(** X8. When the disk reading of a tick raises, the live table has already
    been emptied and stays empty, nothing is stored, and no further tick is
    scheduled: the tick that came due is gone from the queue and the loop
    goes on recording with the clock running. *)
Theorem tick_disk_failure (w : World) (s : App) (e : exn)
    (Hrec : recording s = true) (Hdisk : get_disk_usage w = Raise e) :
  (exists s',
      update_disk_usage w s = (Raise e, s')
      /\ Tree.rows (table_tree s') = []
      /\ conn s' = conn s /\ pending s' = pending s
      /\ same_control s s')
  /\ (forall k ms,
        nth_error (pending s) k = Some (ms, CbUpdateDiskUsage) ->
        exists s',
          dispatch (Timer k w) s = Some s'
          /\ recording s' = true
          /\ pending s' = remove_nth k (pending s)
          /\ S (count_cb CbUpdateDiskUsage (pending s'))
             = count_cb CbUpdateDiskUsage (pending s)
          /\ Tree.rows (table_tree s') = []
          /\ conn s' = conn s).
Proof.
  split.
  - eexists. split.
    + rewrite update_disk_usage_running by exact Hrec. now rewrite Hdisk.
    + unfold same_control. attrs. repeat split.
  - intros k ms Hdue. eexists. split.
    + cbn [dispatch]. rewrite Hdue. cbn [run_callback]. reflexivity.
    + unfold exec.
      rewrite update_disk_usage_running by exact Hrec. rewrite Hdisk. attrs.
      split; [exact Hrec|]. split; [reflexivity|].
      split; [now apply count_cb_remove_nth with (ms := ms)|]. now split.
Qed.

Lemma tick_disk_failure_witness :
  exists s',
    update_disk_usage world_broken app_recording = (Raise OSError, s')
    /\ Tree.rows (table_tree s') = []
    /\ pending s' = [].
Proof.
  destruct (proj1 (tick_disk_failure world_broken app_recording OSError
                     eq_refl eq_refl))
    as (s' & Htick & Hrows & _ & Hp & _).
  exists s'. repeat split; assumption.
Defined.

(** X9. When the insert of a tick raises because the table has handed out
    its largest rowid (the numbers of the reading themselves can be bound),
    the three rows of the reading are already in the live table, the table
    [records] is unchanged, and no further tick is scheduled. *)
Theorem tick_store_failure (w : World) (s : App) (d : Db)
    (disk_info : Z * Z)
    (Hrec : recording s = true) (Hdisk : get_disk_usage w = Ok disk_info)
    (Hconn : conn s = Some d)
    (Hbind : bindable (get_osu_usage w) disk_info)
    (Hfull : (Sqlite.max_rowid <= Sqlite.last_rowid d)%Z) :
  exists s',
    update_disk_usage w s = (Raise OperationalError, s')
    /\ Tree.rows (table_tree s') =
       live_rows (get_cpu_usage w) (get_osu_usage w) disk_info
    /\ conn s' = Some d /\ pending s' = pending s
    /\ same_control s s'.
Proof.
  eexists. split.
  - rewrite update_disk_usage_running by exact Hrec.
    rewrite Hdisk. cbv zeta. rewrite Hconn, (bind_params_ok _ _ _ Hbind).
    now rewrite SqliteFacts.insert_full.
  - unfold same_control. attrs. rewrite redrawn_rows. repeat split.
    exact Hconn.
Qed.

Lemma tick_store_failure_witness :
  exists s',
    update_disk_usage world_fixed (set_recording true (init (Some db_full)))
    = (Raise OperationalError, s')
    /\ List.length (Tree.rows (table_tree s')) = 3%nat
    /\ conn s' = Some db_full.
Proof.
  assert (Hfull : (Sqlite.max_rowid <= Sqlite.last_rowid db_full)%Z).
  { vm_compute. discriminate. }
  assert (Hbind : bindable (get_osu_usage world_fixed) (512, 1024)%Z)
    by (repeat split; reflexivity).
  destruct (tick_store_failure world_fixed
              (set_recording true (init (Some db_full))) db_full
              (512, 1024)%Z eq_refl eq_refl eq_refl Hbind Hfull)
    as (s' & Htick & Hrows & Hc & _).
  exists s'. split; [exact Htick|]. split; [now rewrite Hrows | exact Hc].
Defined.

(** ** The table only grows *)

Lemma stored_step (ev : event) (s s' : App) :
  dispatch ev s = Some s' ->
  stored (conn s') = stored (conn s)
  \/ exists d r,
       conn s = Some d /\ has_room 1 d
       /\ stored (conn s') =
          (stored (conn s) ++ [((Sqlite.last_rowid d + 1)%Z, r)])%list.
Proof.
  assert (Htick : forall w s0,
             stored (conn (exec (update_disk_usage w) s0)) = stored (conn s0)
             \/ exists d r,
                  conn s0 = Some d /\ has_room 1 d
                  /\ stored (conn (exec (update_disk_usage w) s0)) =
                     (stored (conn s0)
                      ++ [((Sqlite.last_rowid d + 1)%Z, r)])%list).
  { intros w s0. destruct (tick_effect w s0) as (_ & _ & _ & Hc & _).
    destruct Hc as [->|(d & r & Hd & Hroom & ->)]; [now left|].
    right. exists d, r. rewrite Hd. now repeat split. }
  destruct ev as [w| | |script|k w]; cbn [dispatch].
  - destruct (start_button s); [|discriminate]. intros [= <-].
    rewrite exec_start_recording.
    destruct (Htick w (exec update_timer (started s))) as [H|H];
      rewrite update_timer_keeps_conn in H; [now left | now right].
  - destruct (stop_button s); [|discriminate]. intros [= <-]. now left.
  - destruct (history_button s); [|discriminate]. intros [= <-]. left.
    unfold exec. destruct (conn s) as [d|] eqn:Hc.
    + rewrite (show_history_eq s d Hc). unfold history_shown. attrs.
      now rewrite Hc.
    + rewrite (show_history_no_table s Hc). cbn [snd]. now rewrite Hc.
  - destruct (change_tick_button s); [|discriminate]. intros [= <-]. left.
    unfold exec, change_tick.
    destruct (askinteger 1 1000 script) as [n|]; [|reflexivity].
    destruct (n =? 0)%Z; reflexivity.
  - destruct (nth_error (pending s) k) as [[ms cb]|]; [|discriminate].
    intros [= <-]. destruct cb; cbn [run_callback].
    + left. now rewrite update_timer_keeps_conn.
    + apply (Htick w (set_pending (remove_nth k (pending s)) s)).
Qed.

Lemma stored_run (evs : list event) (s s' : App) :
  run evs s = Some s' ->
  exists more,
    stored (conn s') = (stored (conn s) ++ more)%list
    /\ (List.length more <= List.length evs)%nat.
Proof.
  intros Hrun.
  revert s Hrun. induction evs as [|ev evs IH]; intros s; cbn [run].
  - intros [= <-]. exists []. now rewrite app_nil_r.
  - destruct (dispatch ev s) as [s1|] eqn:Hstep; [|discriminate].
    intros Hrun. destruct (IH s1 Hrun) as (more & Hmore & Hlen).
    destruct (stored_step ev s s1 Hstep) as [H1|(d & r & _ & _ & H1)];
      rewrite H1 in Hmore.
    + exists more. split; [exact Hmore | cbn [List.length]; lia].
    + eexists. split; [rewrite Hmore, <- app_assoc; reflexivity|].
      cbn [List.length app]. lia.
Qed.

(** X10. Whatever happens in the main loop, the rows of the table [records]
    stay as they are, [id]s included, and new rows only come after them:
    nothing is ever deleted or rewritten, and each event adds at most one
    row. *)
Theorem stored_rows_only_grow (evs : list event) (s s' : App)
    (Hrun : run evs s = Some s') :
  exists more,
    stored (conn s') = (stored (conn s) ++ more)%list
    /\ (List.length more <= List.length evs)%nat.
Proof.
  now apply stored_run.
Qed.

Lemma stored_rows_only_grow_witness :
  exists s more,
    run session_stopped app_fresh = Some s
    /\ stored (conn s) = more
    /\ (List.length more <= 3)%nat.
Proof.
  destruct (run session_stopped app_fresh) as [s|] eqn:Hrun;
    [|vm_compute in Hrun; discriminate].
  destruct (stored_rows_only_grow session_stopped app_fresh s Hrun)
    as (more & Hmore & Hlen).
  exists s, more. split; [reflexivity|]. split; [exact Hmore | exact Hlen].
Defined.

(** ** Ticks, then the history *)




(** ** Memory and disk readings *)

(** X12. [get_osu_usage] rounds both numbers down to whole KiB: each
    result times 1024 is at most the number of bytes and less than one KiB
    below it; non-negative byte counts give non-negative results, and the
    available KiB never exceed the total KiB when the bytes do not. *)
Theorem get_osu_usage_rounds_down (w : World) :
  let available := vm_available (virtual_memory w) in
  let total := vm_total (virtual_memory w) in
  (1024 * fst (get_osu_usage w) <= available
   < 1024 * fst (get_osu_usage w) + 1024)%Z
  /\ (1024 * snd (get_osu_usage w) <= total
      < 1024 * snd (get_osu_usage w) + 1024)%Z
  /\ ((0 <= available)%Z -> (0 <= fst (get_osu_usage w))%Z)
  /\ ((available <= total)%Z ->
      (fst (get_osu_usage w) <= snd (get_osu_usage w))%Z).
Proof.
  intros available total. unfold get_osu_usage. cbn [fst snd].
  fold available total.
  pose proof (Z.div_mod available 1024 ltac:(lia)).
  pose proof (Z.mod_pos_bound available 1024 ltac:(lia)).
  pose proof (Z.div_mod total 1024 ltac:(lia)).
  pose proof (Z.mod_pos_bound total 1024 ltac:(lia)).
  repeat split; lia.
Qed.

Lemma sum_over_permutation {A : Type} (f : A -> Z) (p : A -> bool)
    (l l' : list A) :
  Permutation l l' ->
  sum_over f (filter p l) = sum_over f (filter p l').
Proof.
  induction 1 as [|x l l' _ IH|x y l|l l' l'' _ IH1 _ IH2].
  - reflexivity.
  - cbn [filter]. destruct (p x); [|exact IH].
    now rewrite !sum_over_cons, IH.
  - cbn [filter]. destruct (p x), (p y); rewrite ?sum_over_cons; lia.
  - congruence.
Qed.

(** X13. When every query answers or raises a permission error, the result
    of [get_disk_usage] does not depend on the order in which
    [psutil.disk_partitions] lists the partitions. *)
Theorem get_disk_usage_any_order (w : World) (ps : list sdiskpart)
    (Hanswers : Forall (answers_or_denies w) (disk_partitions w))
    (Hperm : Permutation (disk_partitions w) ps) :
  get_disk_usage (with_partitions ps w) = get_disk_usage w.
Proof.
  rewrite (get_disk_usage_readable w Hanswers).
  rewrite get_disk_usage_readable.
  - unfold readable. cbn [disk_partitions with_partitions].
    change (free_bytes (with_partitions ps w)) with (free_bytes w).
    change (total_bytes (with_partitions ps w)) with (total_bytes w).
    change (raises_permission_error (with_partitions ps w))
      with (raises_permission_error w).
    now rewrite !(sum_over_permutation _ _ _ _ Hperm).
  - cbn [disk_partitions with_partitions].
    apply (Permutation_Forall Hperm). exact Hanswers.
Qed.

Lemma get_disk_usage_any_order_witness :
  get_disk_usage (with_partitions [part_locked; part_root] world_fixed)
  = Ok (512, 1024)%Z.
Proof.
  assert (H : Forall (answers_or_denies world_fixed)
                     (disk_partitions world_fixed)).
  { apply Forall_cons; [left; exists usage_root; reflexivity|].
    apply Forall_cons; [right; reflexivity | apply Forall_nil]. }
  rewrite (get_disk_usage_any_order world_fixed [part_locked; part_root] H
             (perm_swap part_locked part_root [])).
  reflexivity.
Defined.

(** X14. When no partition can be queried, also when there is none,
    [get_disk_usage] returns (0, 0) and does not raise. *)
Theorem get_disk_usage_all_denied (w : World)
    (Hdenied : Forall (fun p => raises_permission_error w p = true)
                      (disk_partitions w)) :
  get_disk_usage w = Ok (0, 0)%Z.
Proof.
  rewrite get_disk_usage_readable.
  - unfold readable. rewrite filter_none; [reflexivity|].
    intros p Hp. rewrite Forall_forall in Hdenied.
    now rewrite (Hdenied p Hp).
  - eapply Forall_impl; [|exact Hdenied].
    intros p Hp. right. unfold raises_permission_error in Hp.
    destruct (disk_usage w (mountpoint p)) as [u|[]]; congruence.
Qed.

Lemma get_disk_usage_all_denied_witness :
  get_disk_usage (with_partitions [part_locked; part_locked] world_fixed)
  = Ok (0, 0)%Z.
Proof.
  apply get_disk_usage_all_denied.
  apply Forall_cons; [reflexivity|].
  apply Forall_cons; [reflexivity | apply Forall_nil].
Defined.

Lemma disk_loop_raises (w : World) (pre post : list sdiskpart)
    (p : sdiskpart) (e : exn) :
  Forall (answers_or_denies w) pre ->
  disk_usage w (mountpoint p) = Raise e -> e <> PermissionError ->
  forall total free,
    disk_loop w (pre ++ p :: post) total free = Raise e.
Proof.
  intros Hpre Hp He. induction Hpre as [|q pre Hq _ IH]; intros total free;
    cbn [app disk_loop].
  - rewrite Hp. destruct e; [contradiction|reflexivity..].
  - destruct Hq as [[u Hu]|Hdenied].
    + rewrite Hu. apply IH.
    + rewrite Hdenied. apply IH.
Qed.

(** X15. An exception of a query other than a permission error is not
    caught: [get_disk_usage] raises the first such exception in the order
    of the partitions, whatever the later partitions would answer. *)
Theorem get_disk_usage_raises_first (w : World) (pre post : list sdiskpart)
    (p : sdiskpart) (e : exn)
    (Hparts : disk_partitions w = (pre ++ p :: post)%list)
    (Hpre : Forall (answers_or_denies w) pre)
    (Hfails : disk_usage w (mountpoint p) = Raise e)
    (Hother : e <> PermissionError) :
  get_disk_usage w = Raise e.
Proof.
  unfold get_disk_usage. rewrite Hparts.
  now rewrite (disk_loop_raises w pre post p e Hpre Hfails Hother).
Qed.

Lemma get_disk_usage_raises_first_witness :
  get_disk_usage world_broken = Raise OSError.
Proof.
  apply (get_disk_usage_raises_first world_broken [part_root] [] part_locked).
  - reflexivity.
  - apply Forall_cons; [left; exists usage_root; reflexivity|apply Forall_nil].
  - reflexivity.
  - discriminate.
Defined.

Lemma sum_over_le {A : Type} (f g : A -> Z) (l : list A) :
  (forall x, In x l -> (0 <= f x <= g x)%Z) ->
  (0 <= sum_over f l <= sum_over g l)%Z.
Proof.
  induction l as [|x l IH]; intros H.
  - cbn. lia.
  - rewrite !sum_over_cons.
    pose proof (H x (or_introl eq_refl)).
    assert (0 <= sum_over f l <= sum_over g l)%Z.
    { apply IH. intros y Hy. apply H. now right. }
    lia.
Qed.

(** X16. When every partition that answers reports a free size between 0
    and its total size, the free KiB [get_disk_usage] returns lie between 0
    and the total KiB it returns. *)
Theorem get_disk_usage_free_within_total (w : World)
    (Hanswers : Forall (answers_or_denies w) (disk_partitions w))
    (Hsizes : forall p u,
        In p (disk_partitions w) -> disk_usage w (mountpoint p) = Ok u ->
        (0 <= du_free u <= du_total u)%Z) :
  exists free total,
    get_disk_usage w = Ok (free, total) /\ (0 <= free <= total)%Z.
Proof.
  eexists _, _. split; [now apply get_disk_usage_readable|].
  assert (H : (0 <= sum_over (free_bytes w) (readable w)
               <= sum_over (total_bytes w) (readable w))%Z).
  { apply sum_over_le. intros p Hp.
    apply filter_In in Hp as [Hp _].
    unfold free_bytes, total_bytes.
    destruct (disk_usage w (mountpoint p)) as [u|e] eqn:Hu; [|lia].
    now apply (Hsizes p u). }
  split; [apply Z.div_pos; lia | apply Z.div_le_mono; lia].
Qed.

Lemma get_disk_usage_free_within_total_witness :
  exists free total,
    get_disk_usage world_fixed = Ok (free, total) /\ (0 <= free <= total)%Z.
Proof.
  apply get_disk_usage_free_within_total.
  - apply Forall_cons; [left; exists usage_root; reflexivity|].
    apply Forall_cons; [right; reflexivity | apply Forall_nil].
  - intros p u [<-|[<-|[]]]; cbn; intros [= <-]; cbn; lia.
Defined.

(** ** One recording session *)

(** X18. While recording, nothing that can happen in the main loop changes
    the tick interval: every tick of one recording is scheduled with the
    interval that was set when the recording started. *)
Theorem interval_fixed_while_recording (s s' : App) (ev : event)
    (Hreach : reachable s) (Hrec : recording s = true)
    (Hstep : dispatch ev s = Some s') :
  tick_interval s' = tick_interval s.
Proof.
  destruct (tick_interval_changes_only_in_dialog ev s s' Hstep)
    as [Hsame|(script & -> & _)]; [exact Hsame|].
  destruct (reachable_invariant s Hreach) as (_ & (_ & _ & Hcb & _) & _).
  cbn [dispatch] in Hstep. rewrite Hcb, Hrec in Hstep. discriminate.
Qed.

Lemma interval_fixed_while_recording_witness :
  exists s s',
    run session_retimed app_fresh = Some s
    /\ dispatch (Timer 1 world_fixed) s = Some s'
    /\ tick_interval s' = tick_interval s.
Proof.
  destruct (run session_retimed app_fresh) as [s|] eqn:Hrun;
    [|vm_compute in Hrun; discriminate].
  assert (Hr : recording s = true).
  { vm_compute in Hrun. injection Hrun as <-. reflexivity. }
  destruct (dispatch (Timer 1 world_fixed) s) as [s'|] eqn:Hstep.
  - exists s, s'. split; [reflexivity|]. split; [exact Hstep|].
    apply (interval_fixed_while_recording s s' (Timer 1 world_fixed)
             (reachable_from_fresh _ s Hrun) Hr Hstep).
  - vm_compute in Hrun. injection Hrun as <-.
    vm_compute in Hstep. discriminate.
Defined.

(** ** No tick without a pending tick *)

Lemma no_tick_entry (q : list (Z * callback)) :
  forall k ms cb,
    count_cb CbUpdateDiskUsage q = 0%nat ->
    nth_error q k = Some (ms, cb) -> cb = CbUpdateTimer.
Proof.
  intros k ms cb Hcount Hk. destruct cb; [reflexivity|].
  pose proof (count_cb_remove_nth CbUpdateDiskUsage q k ms Hk). lia.
Qed.

Lemma count_cb_remove_le (cb : callback) (q : list (Z * callback)) :
  forall k, (count_cb cb (remove_nth k q) <= count_cb cb q)%nat.
Proof.
  unfold count_cb.
  induction q as [|[ms' cb'] q IH]; intros [|k];
    cbn [remove_nth filter snd]; try lia.
  - destruct (callback_eqb cb' cb); cbn [List.length]; lia.
  - specialize (IH k).
    destruct (callback_eqb cb' cb); cbn [List.length]; lia.
Qed.

(** X20. Ticks come only from 'Начать запись' or from a tick: once no tick
    is pending, as after a tick that failed, the callbacks that come due
    never store a row, never redraw the live table and never queue a tick
    again, recording or not. *)
Theorem no_tick_without_callback (evs : list event) (s s' : App)
    (Hnone : count_cb CbUpdateDiskUsage (pending s) = 0%nat)
    (Htimers : Forall is_timer evs)
    (Hrun : run evs s = Some s') :
  count_cb CbUpdateDiskUsage (pending s') = 0%nat
  /\ conn s' = conn s /\ table_tree s' = table_tree s
  /\ recording s' = recording s.
Proof.
  revert s Hnone Hrun. induction Htimers as [|ev evs Hev _ IH];
    intros s Hnone; cbn [run].
  - intros [= <-]. now repeat split.
  - destruct ev as [| | | |k w]; try contradiction.
    cbn [dispatch].
    destruct (nth_error (pending s) k) as [[ms cb]|] eqn:Hk; [|discriminate].
    rewrite (no_tick_entry _ k ms cb Hnone Hk) in *. cbn [run_callback].
    assert (Hstep :
              count_cb CbUpdateDiskUsage
                (pending (exec update_timer
                            (set_pending (remove_nth k (pending s)) s)))
              = 0%nat
              /\ conn (exec update_timer
                         (set_pending (remove_nth k (pending s)) s)) = conn s
              /\ table_tree (exec update_timer
                         (set_pending (remove_nth k (pending s)) s))
                 = table_tree s
              /\ recording (exec update_timer
                         (set_pending (remove_nth k (pending s)) s))
                 = recording s).
    { pose proof (count_cb_remove_le CbUpdateDiskUsage (pending s) k) as Hle.
      destruct (recording s) eqn:Hr.
      - rewrite exec_update_timer_running by exact Hr. attrs.
        rewrite count_cb_app. cbn. repeat split; try assumption. lia.
      - unfold exec. rewrite update_timer_idle by exact Hr. attrs.
        repeat split; try assumption. lia. }
    destruct Hstep as (H0 & Hc & Ht & Hr). intros Hrun.
    destruct (IH _ H0 Hrun) as (H0' & Hc' & Ht' & Hr').
    repeat split; congruence.
Qed.

Lemma no_tick_without_callback_witness :
  exists s s',
    run [ClickStart world_broken] app_fresh = Some s
    /\ recording s = true
    /\ run [Timer 0 world_fixed; Timer 0 world_fixed; Timer 0 world_fixed] s
       = Some s'
    /\ conn s' = conn s /\ elapsed_time s' = 4%Z.
Proof.
  destruct (run [ClickStart world_broken] app_fresh) as [s|] eqn:Hrun;
    [|vm_compute in Hrun; discriminate].
  assert (Hfacts : recording s = true
                   /\ count_cb CbUpdateDiskUsage (pending s) = 0%nat).
  { vm_compute in Hrun. injection Hrun as <-. now split. }
  destruct Hfacts as (Hr & Hnone).
  destruct (run [Timer 0 world_fixed; Timer 0 world_fixed;
                 Timer 0 world_fixed] s) as [s'|] eqn:Hrun'.
  - exists s, s'. split; [reflexivity|]. split; [exact Hr|].
    split; [exact Hrun'|].
    assert (Htimers : Forall is_timer
              [Timer 0 world_fixed; Timer 0 world_fixed; Timer 0 world_fixed]).
    { repeat apply Forall_cons; try exact I. apply Forall_nil. }
    destruct (no_tick_without_callback _ s s' Hnone Htimers Hrun')
      as (_ & Hc & _).
    split; [exact Hc|].
    vm_compute in Hrun. injection Hrun as <-.
    vm_compute in Hrun'. injection Hrun' as <-. reflexivity.
  - vm_compute in Hrun. injection Hrun as <-.
    vm_compute in Hrun'. discriminate.
Defined.
